(** * bixss-ca-backend: access checks, analysis ingestion, comparison

    A shallow embedding of three parts of the backend:
    - the access checks of [models/User.js], [models/Company.js] and
      [middleware/rbac.js];
    - the Redis consumer of [services/analysisConsumer.js], which stores a
      completed analysis and marks its documents as analyzed;
    - the comparison helper [buildComparisonData] of
      [controllers/analysis.controller.js].

    Mongo ObjectIds are represented by the string that [toString()] gives;
    the code compares ids through [toString()] everywhere. *)

From Stdlib Require Import String List ZArith Bool Lia PrimFloat DecimalString.
Import ListNotations.
Local Open Scope string_scope.

Definition ObjectId := string.

(** JavaScript truthiness of a string that may be absent
    ([undefined] or [null]): only a non-empty string is truthy. *)
Definition truthy_str (x : option string) : bool :=
  match x with
  | Some s => negb (s =? "")
  | None => false
  end.

(** [a || b] on two possibly absent strings. *)
Definition or_str (a b : option string) : option string :=
  if truthy_str a then a else b.

(* ===================================================================== *)
(** ** Users, companies and the RBAC middleware *)
(* ===================================================================== *)

Module Rbac.

(** [role] enum of the user schema. *)
Inductive Role := SUPER_ADMIN | CA | COMPANY_ADMIN | COMPANY_USER.

Definition Role_eqb (a b : Role) : bool :=
  match a, b with
  | SUPER_ADMIN, SUPER_ADMIN | CA, CA
  | COMPANY_ADMIN, COMPANY_ADMIN | COMPANY_USER, COMPANY_USER => true
  | _, _ => false
  end.

(** The fields of a user document that the access checks read. *)
Record User := {
  _id : ObjectId;
  role : Role;
  company : option ObjectId;
  invitedCompanies : list ObjectId
}.

(** What a JavaScript expression of the shape [x && (a === b)] evaluates
    to when [x] is an optional reference: the falsy [x] itself, or a
    boolean. *)
Inductive JsResult := JsUndefined | JsBool (b : bool).

Definition truthy (r : JsResult) : bool :=
  match r with
  | JsBool b => b
  | JsUndefined => false
  end.

(** [Array.prototype.some] with a string comparison. *)
Definition some_eq (ids : list ObjectId) (x : string) : bool :=
  existsb (fun c => c =? x) ids.

(** [userSchema.methods.hasCompanyAccess]. *)
Definition hasCompanyAccess (this : User) (companyId : string) : JsResult :=
  match role this with
  | SUPER_ADMIN => JsBool true
  | CA => JsBool (some_eq (invitedCompanies this) companyId)
  | COMPANY_ADMIN | COMPANY_USER =>
      match company this with
      | Some c => JsBool (c =? companyId)
      | None => JsUndefined
      end
  end.

(** The fields of a company document that the access checks read. *)
Record Company := {
  company_id : ObjectId;
  representative : ObjectId;
  companyAdmins : list ObjectId;
  invitedCAs : list ObjectId   (* the [ca] of every invitation record *)
}.

(** [companySchema.methods.isCompanyAdmin]. *)
Definition Company_isCompanyAdmin (this : Company) (userId : ObjectId) : bool :=
  (representative this =? userId) || some_eq (companyAdmins this) userId.

(** [Company.findById] over the companies collection. Ids are taken to be
    well-formed (the routes validate them with [isMongoId]). *)
Definition findById (companies : list Company) (id : string) : option Company :=
  find (fun c => company_id c =? id) companies.

(** An express request, as far as the middleware looks at it. *)
Record Request := {
  user : option User;
  params_companyId : option string;
  body_companyId : option string
}.

(** Either the middleware calls [next()], or it answers with a status
    and a message. *)
Inductive Response :=
| Next
| Json (status : Z) (message : string).

(** [hasCompanyAccess] of middleware/rbac.js. Reading [req.user.role]
    of a missing user throws, and the [catch] answers 500. *)
Definition hasCompanyAccess_mw (req : Request) : Response :=
  match or_str (params_companyId req) (body_companyId req) with
  | None => Json 400 "Company ID is required."
  | Some companyId =>
      if companyId =? "" then Json 400 "Company ID is required."
      else
        match user req with
        | None => Json 500 "Error checking company access."
        | Some u =>
            if Role_eqb (role u) SUPER_ADMIN then Next
            else if truthy (hasCompanyAccess u companyId) then Next
            else Json 403 "Access denied. You do not have access to this company."
        end
  end.

(** The role-based test of [isCompanyAdmin] (rbac.js, lines 109-113). *)
Definition role_fast_path (u : User) (companyId : string) : bool :=
  Role_eqb (role u) COMPANY_ADMIN &&
  match company u with
  | Some c => c =? companyId
  | None => false
  end.

(** [isCompanyAdmin] of middleware/rbac.js. *)
Definition isCompanyAdmin (companies : list Company) (req : Request) : Response :=
  match or_str (params_companyId req) (body_companyId req) with
  | None => Json 400 "Company ID is required."
  | Some companyId =>
      if companyId =? "" then Json 400 "Company ID is required."
      else
        match user req with
        | None => Json 500 "Error checking company admin status."
        | Some u =>
            if Role_eqb (role u) SUPER_ADMIN then Next
            else if role_fast_path u companyId then Next
            else
              match findById companies companyId with
              | None => Json 404 "Company not found."
              | Some c =>
                  if Company_isCompanyAdmin c (_id u) then Next
                  else Json 403 "Access denied. Company admin privileges required."
              end
        end
  end.

(** [caHasCompanyAccess] of middleware/rbac.js. *)
Definition caHasCompanyAccess (companies : list Company) (req : Request) : Response :=
  match or_str (params_companyId req) (body_companyId req) with
  | None => Json 400 "Company ID is required."
  | Some companyId =>
      if companyId =? "" then Json 400 "Company ID is required."
      else
        match user req with
        | None => Json 500 "Error checking CA access."
        | Some u =>
            if negb (Role_eqb (role u) CA)
            then Json 403 "Access denied. CA privileges required."
            else
              match findById companies companyId with
              | None => Json 404 "Company not found."
              | Some c =>
                  if some_eq (invitedCAs c) (_id u) then Next
                  else Json 403 "Access denied. You are not invited to this company."
              end
        end
  end.

(** A request of user [u] for the company [companyId], as the routes
    build it ([/:companyId]). *)
Definition request_for (u : User) (companyId : string) : Request :=
  {| user := Some u; params_companyId := Some companyId; body_companyId := None |}.

(** Sample data: company [O1] is represented by [U1] and lists no
    admin; [U2] is a company admin whose [company] is [O1] although [O1]
    does not list them; [U3] belongs to [O2] but [O1] would list them. *)
Definition O1 : Company :=
  {| company_id := "O1"; representative := "U1"; companyAdmins := [];
     invitedCAs := [] |}.

Definition O1' : Company :=
  {| company_id := "O1"; representative := "U1"; companyAdmins := ["U3"];
     invitedCAs := [] |}.

Definition U1 : User :=
  {| _id := "U1"; role := COMPANY_USER; company := Some "O1";
     invitedCompanies := [] |}.

Definition U2 : User :=
  {| _id := "U2"; role := COMPANY_ADMIN; company := Some "O1";
     invitedCompanies := [] |}.

Definition U3 : User :=
  {| _id := "U3"; role := COMPANY_ADMIN; company := Some "O2";
     invitedCompanies := [] |}.

End Rbac.

(* ===================================================================== *)
(** ** The analysis payload and the stored documents *)
(* ===================================================================== *)

(** The Python service owns the schema of [analysis_data]; Mongo stores it
    as [Mixed]. The records below are the part of that tree which this
    backend reads. An absent key, [undefined] and [null] are all [None]:
    the code tests them with [||], [?.] and [!], which do not tell them
    apart. Metric values and scores are JSON numbers, hence doubles. *)

Record LiquidityAssessment := { assessment_status : option string }.

Record HealthAnalysis := {
  liquidity_assessment : option LiquidityAssessment;
  confidence_score : option float
}.

(** [{}] as a health analysis. *)
Definition empty_health : HealthAnalysis :=
  {| liquidity_assessment := None; confidence_score := None |}.

Record YearValue := { value : option float }.
Record MetricData := { current_year : option YearValue }.

(** [{ current_year: { value: v } }]. *)
Definition metric_with (v : float) : option MetricData :=
  Some {| current_year := Some {| value := Some v |} |}.

(** One metric group, e.g. [liquidity_ratios]: an object from metric
    names to metric data, in the key order [Object.entries] gives. *)
Definition CategoryData := list (string * option MetricData).

(** [comprehensive_financial_metrics]: an object from group names to
    groups. *)
Definition Metrics := list (string * CategoryData).

Record AnalysisData := {
  comprehensive_financial_metrics : option Metrics;
  financial_health_analysis : option HealthAnalysis
}.

(** [{}] as consolidated data (the schema default). *)
Definition empty_data : AnalysisData :=
  {| comprehensive_financial_metrics := None; financial_health_analysis := None |}.

(** [x || y] on numbers that count things: [0] and an absent value are
    falsy. *)
Definition or_num (x : option Z) (y : Z) : Z :=
  match x with
  | Some n => if (n =? 0)%Z then y else n
  | None => y
  end.

(** Membership of an id in an id list ([$in]). *)
Definition id_in (x : ObjectId) (ids : list ObjectId) : bool :=
  existsb (fun y => y =? x) ids.

(** models/Document.js. The fields the consumer reads or writes, and the
    modification stamp that [timestamps: true] maintains. *)
Module Document.

Inductive Status := uploaded | processing | analyzed | failed.

Record t := {
  _id : ObjectId;
  filename : string;
  originalName : string;
  fileType : string;
  company : ObjectId;
  uploadedBy : ObjectId;
  status : Status;
  analysisId : option string;
  updatedAt : Z
}.

End Document.

(** models/Analysis.js. *)
Module Analysis.

Inductive Status := processing | completed | failed.

(** An element of the [documents] array: a snapshot, not a reference. *)
Record Snapshot := {
  documentId : ObjectId;
  filename : string;
  fileType : string
}.

Record t := {
  _id : ObjectId;
  analysisId : string;
  company : option ObjectId;
  uploadedBy : option ObjectId;
  documents : list Snapshot;
  documentCount : Z;
  totalPagesProcessed : Z;
  consolidatedData : AnalysisData;
  healthAnalysis : HealthAnalysis;
  status : Status;
  jobId : option string;
  error : option string;
  createdAt : Z;
  updatedAt : Z
}.


End Analysis.

(* ===================================================================== *)
(** ** services/analysisConsumer.js *)
(* ===================================================================== *)

Module AnalysisConsumer.

(** A JavaScript [Error], by its message. *)
Record Error := { message : string }.

(** *** The message *)

Record Metadata := {
  document_count : option Z;
  total_pages_processed : option Z
}.

(** The object that [JSON.parse] returns for a bus message. *)
Record Message := {
  job_id : option string;
  analysis_id : option string;
  company_id : option ObjectId;
  company_name : option string;
  analysis_data : option AnalysisData;
  document_ids : option (list ObjectId);
  metadata : option Metadata
}.

(** What arrives on the channel: text that [JSON.parse] rejects with an
    error (or parses to [null], so that reading [data.analysis_id]
    throws), or an object. *)
Inductive Payload :=
| Unparseable (e : Error)
| Parsed (data : Message).

(** *** The console *)

Inductive Level := log | error.

(** An argument of a [console] call: text, an error object, or the stack
    of an error. *)
Inductive LogArg :=
| Text (s : string)
| ErrorObject (e : Error)
| ErrorStack (e : Error).

Record LogEntry := { level : Level; args : list LogArg }.

(** *** What the runtime decides for one message

    The driver can reject each of the three database calls (a cast
    error, a lost connection); a rejected call writes nothing. The clock
    gives the time of each write and Mongo the [_id] of an inserted
    record. Mongoose from version 6 drops [undefined] keys from an update
    ([omitUndefined]); before, it stored them as [null]. *)
Record Env := {
  find_error : option Error;
  upsert_error : option Error;
  update_error : option Error;
  upsert_time : Z;
  new_id : ObjectId;
  update_time : Z;
  omitUndefined : bool
}.

(** *** The store and the monad of the handler *)

Record World := {
  analyses : list Analysis.t;
  docs : list Document.t;
  console : list LogEntry
}.

Inductive Outcome (A : Type) :=
| Ok (a : A)
| Thrown (e : Error).
Arguments Ok {A} a.
Arguments Thrown {A} e.

Definition M (A : Type) : Type := World -> Outcome A * World.

Definition ret {A} (a : A) : M A := fun w => (Ok a, w).

Definition bind {A B} (c : M A) (k : A -> M B) : M B :=
  fun w =>
    match c w with
    | (Ok a, w') => k a w'
    | (Thrown e, w') => (Thrown e, w')
    end.

Definition throw {A} (e : Error) : M A := fun w => (Thrown e, w).

(** [try { c } catch (error) { h error }]. *)
Definition try_catch {A} (c : M A) (h : Error -> M A) : M A :=
  fun w =>
    match c w with
    | (Ok a, w') => (Ok a, w')
    | (Thrown e, w') => h e w'
    end.

Declare Scope consumer_scope.
Delimit Scope consumer_scope with consumer.
Notation "x <- c ;; k" := (bind c (fun x => k))
  (at level 61, c at next level, right associativity) : consumer_scope.
Notation "c ;; k" := (bind c (fun _ => k))
  (at level 61, right associativity) : consumer_scope.
Local Open Scope consumer_scope.

Definition emit (e : LogEntry) : M unit :=
  fun w =>
    (Ok tt, {| analyses := analyses w; docs := docs w;
               console := console w ++ [e] |}).

Definition console_log (s : string) : M unit :=
  emit {| level := log; args := [Text s] |}.

Definition console_error (label : string) (a : LogArg) : M unit :=
  emit {| level := error; args := [Text label; a] |}.

(** A possibly absent string inside a template literal. *)
Definition show (x : option string) : string :=
  match x with
  | Some s => s
  | None => "undefined"
  end.

Definition show_bool (b : bool) : string := if b then "true" else "false".

Definition isSome {A} (x : option A) : bool :=
  match x with Some _ => true | None => false end.

(** [Object.keys(data)]: the keys that are present, listed in the order
    of the bus contract. *)
Definition keys (data : Message) : list string :=
  (if isSome (job_id data) then ["job_id"] else []) ++
  (if isSome (analysis_id data) then ["analysis_id"] else []) ++
  (if isSome (company_id data) then ["company_id"] else []) ++
  (if isSome (company_name data) then ["company_name"] else []) ++
  (if isSome (analysis_data data) then ["analysis_data"] else []) ++
  (if isSome (document_ids data) then ["document_ids"] else []) ++
  (if isSome (metadata data) then ["metadata"] else []).

(** *** The database calls *)

(** The documents that [{ _id: { $in: ids } }] selects. *)
Definition matching (ids : list ObjectId) (l : list Document.t) : list Document.t :=
  filter (fun d => id_in (Document._id d) ids) l.

(** [Document.find({ _id: { $in: ids } })]. *)
Definition Document_find (env : Env) (ids : list ObjectId) : M (list Document.t) :=
  fun w =>
    match find_error env with
    | Some e => (Thrown e, w)
    | None => (Ok (matching ids (docs w)), w)
    end.

(** The update document that the handler passes to [findOneAndUpdate]
    (lines 89-102). *)
Record Update := {
  set_analysisId : string;
  set_company : option ObjectId;
  set_jobId : option string;
  set_documents : list Analysis.Snapshot;
  set_documentCount : Z;
  set_totalPagesProcessed : Z;
  set_consolidatedData : AnalysisData;
  set_healthAnalysis : HealthAnalysis;
  set_status : Analysis.Status
}.

(** [$set] of a key whose value may be [undefined]. *)
Definition set_opt {A} (omit : bool) (new old : option A) : option A :=
  match new with
  | Some v => Some v
  | None => if omit then old else None
  end.

(** The update applied to a stored record: every key of the update is
    set, [updatedAt] is stamped, the rest of the record stays. *)
Definition apply_update (env : Env) (u : Update) (a : Analysis.t) : Analysis.t :=
  {| Analysis._id := Analysis._id a;
     Analysis.analysisId := set_analysisId u;
     Analysis.company := set_opt (omitUndefined env) (set_company u) (Analysis.company a);
     Analysis.uploadedBy := Analysis.uploadedBy a;
     Analysis.documents := set_documents u;
     Analysis.documentCount := set_documentCount u;
     Analysis.totalPagesProcessed := set_totalPagesProcessed u;
     Analysis.consolidatedData := set_consolidatedData u;
     Analysis.healthAnalysis := set_healthAnalysis u;
     Analysis.status := set_status u;
     Analysis.jobId := set_opt (omitUndefined env) (set_jobId u) (Analysis.jobId a);
     Analysis.error := Analysis.error a;
     Analysis.createdAt := Analysis.createdAt a;
     Analysis.updatedAt := upsert_time env |}.

(** The record an upsert starts from when the filter matches nothing:
    the filter's key, the schema defaults ([setDefaultsOnInsert]) and the
    creation stamp. No validator runs, so the required [company] and
    [uploadedBy] may stay unset. *)
Definition inserted (env : Env) (key : string) : Analysis.t :=
  {| Analysis._id := new_id env;
     Analysis.analysisId := key;
     Analysis.company := None;
     Analysis.uploadedBy := None;
     Analysis.documents := [];
     Analysis.documentCount := 0;
     Analysis.totalPagesProcessed := 0;
     Analysis.consolidatedData := empty_data;
     Analysis.healthAnalysis := empty_health;
     Analysis.status := Analysis.processing;
     Analysis.jobId := None;
     Analysis.error := None;
     Analysis.createdAt := upsert_time env;
     Analysis.updatedAt := upsert_time env |}.

Definition has_key (key : string) (a : Analysis.t) : bool :=
  Analysis.analysisId a =? key.

(** Update the first element that satisfies [p]; [None] when there is
    none. *)
Fixpoint update_first {A} (p : A -> bool) (f : A -> A) (l : list A)
  : option (list A * A) :=
  match l with
  | [] => None
  | x :: l' =>
      if p x then Some (f x :: l', f x)
      else match update_first p f l' with
           | Some (r, y) => Some (x :: r, y)
           | None => None
           end
  end.

(** The upsert on the collection: the first record with the key is
    updated in place; without one, a record is inserted. Returns the
    collection and the record written ([new: true]). *)
Definition upsert (env : Env) (key : string) (u : Update) (l : list Analysis.t)
  : list Analysis.t * Analysis.t :=
  match update_first (has_key key) (apply_update env u) l with
  | Some r => r
  | None =>
      let a := apply_update env u (inserted env key) in
      ((l ++ [a])%list, a)
  end.

(** [Analysis.findOneAndUpdate({ analysisId: key }, u,
    { upsert: true, new: true, setDefaultsOnInsert: true })]. *)
Definition Analysis_findOneAndUpdate (env : Env) (key : string) (u : Update)
  : M Analysis.t :=
  fun w =>
    match upsert_error env with
    | Some e => (Thrown e, w)
    | None =>
        let '(l, a) := upsert env key u (analyses w) in
        (Ok a, {| analyses := l; docs := docs w; console := console w |})
    end.

(** The update of [Document.updateMany] (lines 114-117) on one
    document. *)
Definition mark_analyzed (env : Env) (analysis_id : string) (d : Document.t)
  : Document.t :=
  {| Document._id := Document._id d;
     Document.filename := Document.filename d;
     Document.originalName := Document.originalName d;
     Document.fileType := Document.fileType d;
     Document.company := Document.company d;
     Document.uploadedBy := Document.uploadedBy d;
     Document.status := Document.analyzed;
     Document.analysisId := Some analysis_id;
     Document.updatedAt := update_time env |}.

(** The update applied to every selected document. *)
Definition mark_all (env : Env) (ids : list ObjectId) (analysis_id : string)
  (l : list Document.t) : list Document.t :=
  map (fun d => if id_in (Document._id d) ids
                then mark_analyzed env analysis_id d else d) l.

(** [Document.updateMany({ _id: { $in: ids } },
    { status: 'analyzed', analysisId: analysis_id })]. *)
Definition Document_updateMany (env : Env) (ids : list ObjectId)
  (analysis_id : string) : M unit :=
  fun w =>
    match update_error env with
    | Some e => (Thrown e, w)
    | None =>
        (Ok tt,
         {| analyses := analyses w;
            docs := mark_all env ids analysis_id (docs w);
            console := console w |})
    end.

(** *** The handler *)

(** [JSON.parse(message)], then the first read of [data]. *)
Definition JSON_parse (message : Payload) : M Message :=
  match message with
  | Unparseable e => throw e
  | Parsed data => ret data
  end.

(** [doc => ({ documentId: doc._id,
               filename: doc.originalName || doc.filename,
               fileType: doc.fileType })]. *)
Definition snapshot (doc : Document.t) : Analysis.Snapshot :=
  {| Analysis.documentId := Document._id doc;
     Analysis.filename :=
       if Document.originalName doc =? "" then Document.filename doc
       else Document.originalName doc;
     Analysis.fileType := Document.fileType doc |}.

(** [document_ids && document_ids.length > 0]: the ids, when there are
    some. *)
Definition given_ids (document_ids : option (list ObjectId)) : list ObjectId :=
  match document_ids with
  | Some ids => ids
  | None => []
  end.

Definition has_ids (document_ids : option (list ObjectId)) : bool :=
  match given_ids document_ids with
  | [] => false
  | _ :: _ => true
  end.

(** [metadata?.document_count] and [metadata?.total_pages_processed]. *)
Definition meta_document_count (m : option Metadata) : option Z :=
  match m with Some x => document_count x | None => None end.

Definition meta_total_pages (m : option Metadata) : option Z :=
  match m with Some x => total_pages_processed x | None => None end.

(** [analysis_data?.financial_health_analysis || {}]. *)
Definition health_of (d : AnalysisData) : HealthAnalysis :=
  match financial_health_analysis d with
  | Some h => h
  | None => empty_health
  end.

(** The update object of lines 89-102. *)
Definition update_of (data : Message) (analysis_id : string)
  (analysis_data : AnalysisData) (documents : list Analysis.Snapshot) : Update :=
  {| set_analysisId := analysis_id;
     set_company := company_id data;
     set_jobId := job_id data;
     set_documents := documents;
     set_documentCount :=
       or_num (meta_document_count (metadata data)) (Z.of_nat (length documents));
     set_totalPagesProcessed := or_num (meta_total_pages (metadata data)) 0;
     set_consolidatedData := analysis_data;
     set_healthAnalysis := health_of analysis_data;
     set_status := Analysis.completed |}.

(** Lines 75-84: the snapshots of the documents that exist. *)
Definition resolve_documents (env : Env) (data : Message) : M (list Analysis.Snapshot) :=
  if has_ids (document_ids data) then
    found <- Document_find env (given_ids (document_ids data)) ;;
    ret (map snapshot found)
  else ret [].

(** Lines 48-108: parse, validate, resolve the documents, upsert the
    analysis. Returns what the rest of the handler uses. *)
Definition save_analysis (env : Env) (message : Payload)
  : M (Message * string * Analysis.t) :=
  data <- JSON_parse message ;;
  console_log ("📥 Received analysis message: " ++ show (analysis_id data)) ;;
  console_log ("🔍 Message keys: " ++ String.concat ", " (keys data)) ;;
  console_log ("🔍 analysis_data exists: " ++ show_bool (isSome (analysis_data data))) ;;
  console_log ("🔍 analysis_data type: " ++
               (if isSome (analysis_data data) then "object" else "undefined")) ;;
  if negb (truthy_str (analysis_id data))
  then throw {| message := "Missing analysis_id in message" |}
  else
    match analysis_data data with
    | None => throw {| message := "Missing analysis_data in message" |}
    | Some analysis_data =>
        let analysis_id := show (analysis_id data) in
        console_log ("💾 Saving to MongoDB: " ++ analysis_id) ;;
        console_log ("📊 Company: " ++ show (company_name data) ++
                     " (" ++ show (company_id data) ++ ")") ;;
        documents <- resolve_documents env data ;;
        analysis <- Analysis_findOneAndUpdate env analysis_id
                      (update_of data analysis_id analysis_data documents) ;;
        ret (data, analysis_id, analysis)
    end.

(** Lines 110-122: mark the documents, then report. *)
Definition sync_documents (env : Env) (r : Message * string * Analysis.t) : M unit :=
  let '(data, analysis_id, analysis) := r in
  (if has_ids (document_ids data)
   then Document_updateMany env (given_ids (document_ids data)) analysis_id
   else ret tt) ;;
  console_log ("✅ Analysis " ++ analysis_id ++ " saved successfully to MongoDB") ;;
  console_log ("✅ Document ID: " ++ Analysis._id analysis).

(** [handleAnalysisMessage]. *)
Definition handleAnalysisMessage (env : Env) (message : Payload) : M unit :=
  try_catch
    (r <- save_analysis env message ;; sync_documents env r)
    (fun error =>
       console_error "❌ Error handling analysis message:" (ErrorObject error) ;;
       console_error "   Stack:" (ErrorStack error)).

(** The subscription callback run on a sequence of deliveries. A handler
    that threw would reject the callback and end the run there. *)
Fixpoint subscription (deliveries : list (Env * Payload)) : M unit :=
  match deliveries with
  | [] => ret tt
  | (env, message) :: rest =>
      handleAnalysisMessage env message ;; subscription rest
  end.

(** The stores a message passes through: the one it finds, the one after
    the upsert call, and the one it leaves. *)
Definition states (env : Env) (message : Payload) (w : World) : list World :=
  [w; snd (save_analysis env message w); snd (handleAnalysisMessage env message w)].

Fixpoint reachable (deliveries : list (Env * Payload)) (w : World) : list World :=
  match deliveries with
  | [] => [w]
  | (env, message) :: rest =>
      states env message w ++
      reachable rest (snd (handleAnalysisMessage env message w))
  end.

(** *** Observations used in the statements *)

(** The first stored analysis with a given key ([findOne]). *)
Definition findOne (key : string) (w : World) : option Analysis.t :=
  find (has_key key) (analyses w).

(** How many stored analyses carry a key. *)
Definition count_key (key : string) (l : list Analysis.t) : nat :=
  length (filter (has_key key) l).

(** Every document marked as analyzed names an analysis that is
    stored. *)
Definition analyzed_refs_ok (w : World) : bool :=
  forallb
    (fun d =>
       match Document.status d, Document.analysisId d with
       | Document.analyzed, Some a => existsb (has_key a) (analyses w)
       | _, _ => true
       end)
    (docs w).

(** Is [s] a prefix of [t], and does [s] occur in [t]? *)
Fixpoint occurs (s t : string) : bool :=
  prefix s t ||
  match t with
  | EmptyString => false
  | String _ t' => occurs s t'
  end.

(** Does an argument of a console call show the text [s]? An error shows
    its message. *)
Definition arg_mentions (s : string) (a : LogArg) : bool :=
  match a with
  | Text t => occurs s t
  | ErrorObject e | ErrorStack e => occurs s (message e)
  end.

Definition mentions (s : string) (e : LogEntry) : bool :=
  existsb (arg_mentions s) (args e).

Definition is_error (e : LogEntry) : bool :=
  match level e with error => true | log => false end.

(** An environment in which no database call is rejected. *)
Definition no_fault (env : Env) : Prop :=
  find_error env = None /\ upsert_error env = None /\ update_error env = None.

(** A message passes the validation of lines 55-60 with the key [id] and
    the payload [adata]. *)
Definition valid (data : Message) (id : string) (adata : AnalysisData) : Prop :=
  analysis_id data = Some id /\ id <> "" /\ analysis_data data = Some adata.

(** The four lines printed on receipt (lines 49-52). *)
Definition receipt_lines (data : Message) : list LogEntry :=
  [ {| level := log;
       args := [Text ("📥 Received analysis message: " ++ show (analysis_id data))] |};
    {| level := log;
       args := [Text ("🔍 Message keys: " ++ String.concat ", " (keys data))] |};
    {| level := log;
       args := [Text ("🔍 analysis_data exists: " ++
                      show_bool (isSome (analysis_data data)))] |};
    {| level := log;
       args := [Text ("🔍 analysis_data type: " ++
                      (if isSome (analysis_data data) then "object" else "undefined"))] |} ].

(** The two lines printed by the [catch] (lines 125-126). *)
Definition failure_lines (e : Error) : list LogEntry :=
  [ {| level := error;
       args := [Text "❌ Error handling analysis message:"; ErrorObject e] |};
    {| level := error; args := [Text "   Stack:"; ErrorStack e] |} ].

(** The error thrown by the validation, if any. *)
Definition validation_error (data : Message) : option Error :=
  if negb (truthy_str (analysis_id data))
  then Some {| message := "Missing analysis_id in message" |}
  else if isSome (analysis_data data) then None
  else Some {| message := "Missing analysis_data in message" |}.

(** Lines 75-84 on a document collection. *)
Definition resolved (data : Message) (l : list Document.t) : list Analysis.Snapshot :=
  if has_ids (document_ids data)
  then map snapshot (matching (given_ids (document_ids data)) l)
  else [].

(** Lines 111-119 on a document collection. *)
Definition synced (env : Env) (data : Message) (analysis_id : string)
  (l : list Document.t) : list Document.t :=
  if has_ids (document_ids data)
  then mark_all env (given_ids (document_ids data)) analysis_id l
  else l.

(** The two lines printed before the database calls (lines 72-73). *)
Definition progress_lines (data : Message) (analysis_id : string) : list LogEntry :=
  [ {| level := log; args := [Text ("💾 Saving to MongoDB: " ++ analysis_id)] |};
    {| level := log;
       args := [Text ("📊 Company: " ++ show (company_name data) ++
                      " (" ++ show (company_id data) ++ ")")] |} ].

(** The two lines printed at the end (lines 121-122). *)
Definition success_lines (analysis_id : string) (a : Analysis.t) : list LogEntry :=
  [ {| level := log;
       args := [Text ("✅ Analysis " ++ analysis_id ++ " saved successfully to MongoDB")] |};
    {| level := log; args := [Text ("✅ Document ID: " ++ Analysis._id a)] |} ].

(** Sample data: one stored document [D1], a message for the analysis
    [A1] that names [D1] and an unknown [D2], the same message without
    its payload, and two deliveries one second apart. *)
Definition env0 : Env :=
  {| find_error := None; upsert_error := None; update_error := None;
     upsert_time := 1000; new_id := "r1"; update_time := 1001;
     omitUndefined := true |}.

Definition env1 : Env :=
  {| find_error := None; upsert_error := None; update_error := None;
     upsert_time := 2000; new_id := "r2"; update_time := 2001;
     omitUndefined := true |}.

Definition D1 : Document.t :=
  {| Document._id := "D1"; Document.filename := "f-17.pdf";
     Document.originalName := "balance.pdf"; Document.fileType := "pdf";
     Document.company := "c1"; Document.uploadedBy := "u1";
     Document.status := Document.uploaded; Document.analysisId := None;
     Document.updatedAt := 5 |}.

Definition message_A1 : Message :=
  {| job_id := Some "j1"; analysis_id := Some "A1"; company_id := Some "c1";
     company_name := Some "Acme"; analysis_data := Some empty_data;
     document_ids := Some ["D1"; "D2"]; metadata := None |}.

Definition message_no_data : Message :=
  {| job_id := Some "j1"; analysis_id := Some "A1"; company_id := Some "c1";
     company_name := Some "Acme"; analysis_data := None;
     document_ids := Some ["D1"; "D2"]; metadata := None |}.

Definition store0 : World := {| analyses := []; docs := [D1]; console := [] |}.

End AnalysisConsumer.

(* ===================================================================== *)
(** ** controllers/analysis.controller.js: the comparison *)
(* ===================================================================== *)

Module AnalysisController.

(** [metricData?.current_year?.value]. *)
Definition metric_value (metricData : option MetricData) : option float :=
  match metricData with
  | Some m =>
      match current_year m with
      | Some y => value y
      | None => None
      end
  | None => None
  end.

(** [x?.liquidity_assessment?.status || 'N/A']. *)
Definition status_or_NA (h : HealthAnalysis) : string :=
  match liquidity_assessment h with
  | Some l =>
      match assessment_status l with
      | Some s => if s =? "" then "N/A" else s
      | None => "N/A"
      end
  | None => "N/A"
  end.

(** A double is falsy when it is zero or NaN. *)
Definition falsy_num (x : float) : bool :=
  PrimFloat.eqb x 0%float || negb (PrimFloat.eqb x x).

(** [x?.confidence_score || 0]. *)
Definition score_or_0 (h : HealthAnalysis) : float :=
  match confidence_score h with
  | Some x => if falsy_num x then 0%float else x
  | None => 0%float
  end.

(** An element of [health_progression]. *)
Record HealthPoint := {
  hp_date : Z;
  hp_analysis_id : string;
  health_status : string;
  hp_confidence_score : float
}.

(** An element of a metric series. *)
Record Point := {
  date : Z;
  value : float;
  analysis_id : string
}.

(** [metricTrends]: an object from metric keys to series, in insertion
    order. *)
Definition MetricTrends := list (string * list Point).

Definition has_metric (key : string) (t : MetricTrends) : bool :=
  existsb (fun kv => fst kv =? key) t.

(** [if (!metricTrends[key]) metricTrends[key] = []]. *)
Definition ensure (key : string) (t : MetricTrends) : MetricTrends :=
  if has_metric key t then t else (t ++ [(key, [])])%list.

(** [metricTrends[key].push(p)]. *)
Definition push (key : string) (p : Point) (t : MetricTrends) : MetricTrends :=
  map (fun kv => if fst kv =? key then (fst kv, (snd kv ++ [p])%list) else kv) t.

Definition metricCategories : list string :=
  ["liquidity_ratios"; "profitability_ratios"; "leverage_ratios";
   "efficiency_ratios"].

(** [metrics[category] || {}], with
    [metrics = analysis.consolidatedData?.comprehensive_financial_metrics || {}]. *)
Definition categoryData_of (analysis : Analysis.t) (category : string) : CategoryData :=
  match comprehensive_financial_metrics (Analysis.consolidatedData analysis) with
  | Some metrics =>
      match find (fun kv => fst kv =? category) metrics with
      | Some kv => snd kv
      | None => []
      end
  | None => []
  end.

(** The body of the innermost [forEach] (lines 318-332). *)
Definition add_entry (analysis : Analysis.t) (category : string)
  (t : MetricTrends) (entry : string * option MetricData) : MetricTrends :=
  let key := category ++ "." ++ fst entry in
  let t := ensure key t in
  match metric_value (snd entry) with
  | Some v =>
      push key {| date := Analysis.createdAt analysis; value := v;
                  analysis_id := Analysis.analysisId analysis |} t
  | None => t
  end.

(** Lines 313-334. *)
Definition extract_trends (analyses : list Analysis.t) : MetricTrends :=
  fold_left
    (fun t category =>
       fold_left
         (fun t analysis =>
            fold_left (add_entry analysis category)
                      (categoryData_of analysis category) t)
         analyses t)
    metricCategories [].

(** An element of [improving_metrics] or [declining_metrics]. *)
Record Change := { metric : string; change : float }.

(** [((last - first) / Math.abs(first)) * 100]. *)
Definition percent_change (first last : float) : float :=
  ((last - first) / abs first * 100)%float.

(** [values.length >= 2] with the first and the last value. *)
Definition ends (values : list Point) : option (float * float) :=
  match values with
  | p :: (_ :: _) as rest => Some (value p, value (last rest p))
  | _ => None
  end.

(** The body of the [forEach] of lines 340-349, on the pair of
    [improving] and [declining]. *)
Definition classify (acc : list Change * list Change)
  (entry : string * list Point) : list Change * list Change :=
  match ends (snd entry) with
  | Some (first, last) =>
      let change := percent_change first last in
      let improving :=
        if PrimFloat.ltb 5%float change
        then (fst acc ++ [{| metric := fst entry; change := change |}])%list
        else fst acc in
      let declining :=
        if PrimFloat.ltb change (-5)%float
        then (snd acc ++ [{| metric := fst entry; change := change |}])%list
        else snd acc in
      (improving, declining)
  | None => acc
  end.

(** [array.length] inside a template literal. *)
Definition show_length {A} (l : list A) : string :=
  NilEmpty.string_of_uint (Nat.to_uint (length l)).

(** [generateSummary]. *)
Definition generateSummary (improving declining : list Change)
  (healthProgression : list HealthPoint) : string :=
  let trend :=
    if (length declining <? length improving)%nat then "improving"
    else if (length improving <? length declining)%nat then "declining"
    else "stable" in
  "Overall trend is " ++ trend ++ ". " ++ show_length improving ++
  " metrics improving, " ++ show_length declining ++ " metrics declining. " ++
  "Latest health status: " ++
  match rev healthProgression with
  | h :: _ => if health_status h =? "" then "N/A" else health_status h
  | [] => "N/A"
  end ++ ".".

Record ComparisonData := {
  health_progression : list HealthPoint;
  metric_trends : MetricTrends;
  improving_metrics : list Change;
  declining_metrics : list Change;
  summary : string
}.

(** [buildComparisonData]. *)
Definition buildComparisonData (analyses : list Analysis.t) : ComparisonData :=
  let healthProgression :=
    map (fun analysis =>
           {| hp_date := Analysis.createdAt analysis;
              hp_analysis_id := Analysis.analysisId analysis;
              health_status := status_or_NA (Analysis.healthAnalysis analysis);
              hp_confidence_score := score_or_0 (Analysis.healthAnalysis analysis) |})
        analyses in
  let metricTrends := extract_trends analyses in
  let '(improving, declining) := fold_left classify metricTrends ([], []) in
  {| health_progression := healthProgression;
     metric_trends := metricTrends;
     improving_metrics := improving;
     declining_metrics := declining;
     summary := generateSummary improving declining healthProgression |}.

(** The two tests of lines 346-347 on one entry of [metricTrends]. *)
Definition rises (entry : string * list Point) : bool :=
  match ends (snd entry) with
  | Some (first, last) => PrimFloat.ltb 5%float (percent_change first last)
  | None => false
  end.

Definition falls (entry : string * list Point) : bool :=
  match ends (snd entry) with
  | Some (first, last) => PrimFloat.ltb (percent_change first last) (-5)%float
  | None => false
  end.

(** The metric keys listed in a classification list. *)
Definition listed (key : string) (l : list Change) : bool :=
  existsb (fun c => metric c =? key) l.

(** A stored analysis whose payload holds one liquidity metric,
    [current_ratio], with the given value. *)
Definition sample (key : string) (created : Z) (v : float) : Analysis.t :=
  {| Analysis._id := key; Analysis.analysisId := key;
     Analysis.company := Some "c1"; Analysis.uploadedBy := None;
     Analysis.documents := []; Analysis.documentCount := 0;
     Analysis.totalPagesProcessed := 0;
     Analysis.consolidatedData :=
       {| comprehensive_financial_metrics :=
            Some [("liquidity_ratios",
                   [("current_ratio", metric_with v)])];
          financial_health_analysis := None |};
     Analysis.healthAnalysis := empty_health;
     Analysis.status := Analysis.completed; Analysis.jobId := None;
     Analysis.error := None; Analysis.createdAt := created;
     Analysis.updatedAt := created |}.

(** The series of [current_ratio] over two sample analyses. *)
Definition sample_key : string := "liquidity_ratios.current_ratio".

Definition sample_series (a b : float) : list Point :=
  [ {| date := 1; value := a; analysis_id := "A1" |};
    {| date := 2; value := b; analysis_id := "A2" |} ].

Definition sample_pair (a b : float) : list Analysis.t :=
  [sample "A1" 1 a; sample "A2" 2 b].

End AnalysisController.

(* ===================================================================== *)
(** ** The other guards of middleware/rbac.js *)
(* ===================================================================== *)

Module RbacGuards.
Import Rbac.

(** [authorize(...roles)]. *)
Definition authorize (roles : list Role) (req : Request) : Response :=
  match user req with
  | None => Json 401 "Authentication required."
  | Some u =>
      if existsb (Role_eqb (role u)) roles then Next
      else Json 403 "Access denied. Insufficient permissions."
  end.

(** [isSuperAdmin]. *)
Definition isSuperAdmin (req : Request) : Response :=
  match user req with
  | Some u =>
      if Role_eqb (role u) SUPER_ADMIN then Next
      else Json 403 "Access denied. Super admin privileges required."
  | None => Json 403 "Access denied. Super admin privileges required."
  end.

(** [isCA]. *)
Definition isCA (req : Request) : Response :=
  match user req with
  | Some u =>
      if Role_eqb (role u) CA then Next
      else Json 403 "Access denied. CA privileges required."
  | None => Json 403 "Access denied. CA privileges required."
  end.

End RbacGuards.

(* ===================================================================== *)
(** ** models/Company.js with its invitation records *)
(* ===================================================================== *)

Module CompanyModel.

(** An element of [invitedCAs]. *)
Record Invite := {
  ca : ObjectId;
  invitedAt : Z;
  invitedBy : ObjectId
}.

Record t := {
  _id : ObjectId;
  representative : ObjectId;
  companyAdmins : list ObjectId;
  invitedCAs : list Invite
}.

(** The company as the access checks read it. *)
Definition view (c : t) : Rbac.Company :=
  {| Rbac.company_id := _id c;
     Rbac.representative := representative c;
     Rbac.companyAdmins := companyAdmins c;
     Rbac.invitedCAs := map ca (invitedCAs c) |}.

(** The virtual [allAdmins]. *)
Definition allAdmins (this : t) : list ObjectId :=
  representative this :: companyAdmins this.

(** [this.invitedCAs.some((invite) => invite.ca.toString() === caId.toString())]. *)
Definition alreadyInvited (this : t) (caId : ObjectId) : bool :=
  existsb (fun invite => ca invite =? caId) (invitedCAs this).

(** [companySchema.methods.inviteCA]; [now] is the value of
    [new Date()]. *)
Definition inviteCA (now : Z) (this : t) (caId invitedByUserId : ObjectId) : t :=
  if alreadyInvited this caId then this
  else
    {| _id := _id this; representative := representative this;
       companyAdmins := companyAdmins this;
       invitedCAs :=
         invitedCAs this ++
         [{| ca := caId; invitedAt := now; invitedBy := invitedByUserId |}] |}.

(** [companySchema.methods.removeCA]. *)
Definition removeCA (this : t) (caId : ObjectId) : t :=
  {| _id := _id this; representative := representative this;
     companyAdmins := companyAdmins this;
     invitedCAs := filter (fun invite => negb (ca invite =? caId)) (invitedCAs this) |}.

(** The company with another list of admins. *)
Definition with_companyAdmins (l : list ObjectId) (this : t) : t :=
  {| _id := _id this; representative := representative this;
     companyAdmins := l; invitedCAs := invitedCAs this |}.

End CompanyModel.

(* ===================================================================== *)
(** ** The company controller: invitations and company admins *)
(* ===================================================================== *)

Module CompanyController.
Import Rbac.

(** The two collections the controller works on. *)
Record Db := {
  users : list User;
  companies : list CompanyModel.t
}.

(** The database calls of a handler, each of which the driver may
    reject; a handler passes a rejection to [next]. *)
Inductive Call := FindCompany | FindUser | SaveCompany | SaveUser | Refetch.

Definition Faults := Call -> option string.

Definition no_faults (f : Faults) : Prop := forall c, f c = None.

(** What a handler does with the request: it answers, or it calls
    [next] with an [AppError] or with the error of a rejected call. The
    [data] of an answer is not represented. *)
Inductive Reply :=
| Sent (status : Z) (message : string)
| NextAppError (message : string) (statusCode : Z)
| NextError (e : string).

(** [Company.findById] and [User.findById]. *)
Definition Company_findById (l : list CompanyModel.t) (id : string)
  : option CompanyModel.t :=
  find (fun c => CompanyModel._id c =? id) l.

Definition User_findById (l : list User) (id : string) : option User :=
  find (fun u => _id u =? id) l.

(** [doc.save()]: the stored document with the same [_id] is
    replaced. *)
Fixpoint save_company (c : CompanyModel.t) (l : list CompanyModel.t)
  : list CompanyModel.t :=
  match l with
  | [] => []
  | x :: l' =>
      if CompanyModel._id x =? CompanyModel._id c then c :: l'
      else x :: save_company c l'
  end.

Fixpoint save_user (u : User) (l : list User) : list User :=
  match l with
  | [] => []
  | x :: l' => if _id x =? _id u then u :: l' else x :: save_user u l'
  end.

Definition with_invitedCompanies (l : list ObjectId) (u : User) : User :=
  {| _id := _id u; role := role u; company := company u; invitedCompanies := l |}.

Definition with_company (c : option ObjectId) (u : User) : User :=
  {| _id := _id u; role := role u; company := c;
     invitedCompanies := invitedCompanies u |}.

(** [array.includes(id)] on an array of ids: Mongoose compares the
    elements with the id through their strings. *)
Definition includes (l : list ObjectId) (id : string) : bool :=
  existsb (fun x => x =? id) l.

(** An awaited call: rejected, or continued. *)
Definition attempt (f : Faults) (c : Call) (db : Db) (k : Reply * Db) : Reply * Db :=
  match f c with
  | Some e => (NextError e, db)
  | None => k
  end.

(** [inviteCA]: [companyId] is [req.params.companyId], [caId] is
    [req.body.caId], [req_user] is [req.user]. *)
Definition inviteCA (f : Faults) (now : Z) (req_user : User)
  (companyId caId : string) (db : Db) : Reply * Db :=
  attempt f FindCompany db
    match Company_findById (companies db) companyId with
    | None => (NextAppError "Company not found" 404, db)
    | Some company =>
        attempt f FindUser db
          match User_findById (users db) caId with
          | None => (NextAppError "CA user not found" 404, db)
          | Some ca =>
              if negb (Role_eqb (role ca) CA)
              then (NextAppError "User is not a CA" 400, db)
              else if CompanyModel.alreadyInvited company caId
              then (NextAppError "CA is already invited to this company" 400, db)
              else
                attempt f SaveCompany db
                  (let db1 :=
                     {| users := users db;
                        companies :=
                          save_company
                            (CompanyModel.inviteCA now company caId (_id req_user))
                            (companies db) |} in
                   let answer d :=
                     attempt f Refetch d (Sent 200 "CA invited successfully", d) in
                   if includes (invitedCompanies ca) companyId then answer db1
                   else
                     attempt f SaveUser db1
                       (answer
                          {| users :=
                               save_user
                                 (with_invitedCompanies
                                    (invitedCompanies ca ++ [companyId]) ca)
                                 (users db1);
                             companies := companies db1 |}))
          end
    end.

(** [removeCA]: both ids are route parameters. *)
Definition removeCA (f : Faults) (companyId caId : string) (db : Db) : Reply * Db :=
  attempt f FindCompany db
    match Company_findById (companies db) companyId with
    | None => (NextAppError "Company not found" 404, db)
    | Some company =>
        attempt f FindUser db
          match User_findById (users db) caId with
          | None => (NextAppError "CA user not found" 404, db)
          | Some ca =>
              attempt f SaveCompany db
                (let db1 :=
                   {| users := users db;
                      companies :=
                        save_company (CompanyModel.removeCA company caId)
                                     (companies db) |} in
                 attempt f SaveUser db1
                   (Sent 200 "CA removed successfully",
                    {| users :=
                         save_user
                           (with_invitedCompanies
                              (filter (fun compId => negb (compId =? companyId))
                                      (invitedCompanies ca)) ca)
                           (users db1);
                       companies := companies db1 |}))
          end
    end.

(** [addCompanyAdmin]: [userId] is [req.body.userId]. *)
Definition addCompanyAdmin (f : Faults) (companyId userId : string) (db : Db)
  : Reply * Db :=
  attempt f FindCompany db
    match Company_findById (companies db) companyId with
    | None => (NextAppError "Company not found" 404, db)
    | Some company =>
        attempt f FindUser db
          match User_findById (users db) userId with
          | None => (NextAppError "User not found" 404, db)
          | Some user =>
              if negb (Role_eqb (role user) COMPANY_ADMIN)
              then (NextAppError "User must have COMPANY_ADMIN role" 400, db)
              else if match Rbac.company user with
                      | Some c => negb (c =? companyId)
                      | None => false
                      end
              then (NextAppError "User is already assigned to another company" 400, db)
              else if includes (CompanyModel.companyAdmins company) userId
              then (NextAppError "User is already a company admin" 400, db)
              else
                attempt f SaveCompany db
                  (let db1 :=
                     {| users := users db;
                        companies :=
                          save_company
                            (CompanyModel.with_companyAdmins
                               (CompanyModel.companyAdmins company ++ [userId]) company)
                            (companies db) |} in
                   attempt f SaveUser db1
                     (let db2 :=
                        {| users := save_user (with_company (Some companyId) user)
                                              (users db1);
                           companies := companies db1 |} in
                      attempt f Refetch db2
                        (Sent 200 "Company admin added successfully", db2)))
          end
    end.

(** [removeCompanyAdmin]: both ids are route parameters. The user
    document is not read and not written. *)
Definition removeCompanyAdmin (f : Faults) (companyId userId : string) (db : Db)
  : Reply * Db :=
  attempt f FindCompany db
    match Company_findById (companies db) companyId with
    | None => (NextAppError "Company not found" 404, db)
    | Some company =>
        attempt f SaveCompany db
          (Sent 200 "Company admin removed successfully",
           {| users := users db;
              companies :=
                save_company
                  (CompanyModel.with_companyAdmins
                     (filter (fun adminId => negb (adminId =? userId))
                             (CompanyModel.companyAdmins company)) company)
                  (companies db) |})
    end.

(** The companies as the middleware of rbac.js reads them. *)
Definition company_views (db : Db) : list Company :=
  map CompanyModel.view (companies db).

(** Sample data: the company [O1] of the access checks with no
    invitation, the CA [ca7], and a store holding both together with the
    users of the access checks. *)
Definition company_O1 : CompanyModel.t :=
  {| CompanyModel._id := "O1"; CompanyModel.representative := "U1";
     CompanyModel.companyAdmins := []; CompanyModel.invitedCAs := [] |}.

Definition ca7 : User :=
  {| _id := "CA7"; role := CA; company := None; invitedCompanies := [] |}.

Definition admin9 : User :=
  {| _id := "U9"; role := COMPANY_ADMIN; company := None; invitedCompanies := [] |}.

Definition db0 : Db :=
  {| users := [U1; U2; ca7; admin9]; companies := [company_O1] |}.

Definition ok_faults : Faults := fun _ => None.

Definition user_save_fails : Faults :=
  fun c => match c with SaveUser => Some "write failed" | _ => None end.

End CompanyController.

(* ===================================================================== *)
(** ** The admin controller: assigning companies to a CA *)
(* ===================================================================== *)

Module AdminController.
Import Rbac.

(** The database calls of the two handlers. *)
Inductive Call := FindCA | FindCompanies | SaveCA | UpdateCompanies | Populate.

Definition Faults := Call -> option string.

Definition no_faults (f : Faults) : Prop := forall c, f c = None.

Definition attempt (f : Faults) (c : Call) (db : CompanyController.Db)
  (k : CompanyController.Reply * CompanyController.Db)
  : CompanyController.Reply * CompanyController.Db :=
  match f c with
  | Some e => (CompanyController.NextError e, db)
  | None => k
  end.

(** [User.findOne({ _id: caId, role: 'CA' })]. *)
Definition findCA (l : list User) (caId : string) : option User :=
  find (fun u => (_id u =? caId) && Role_eqb (role u) CA) l.

(** [Company.find({ _id: { $in: companyIds } })]. *)
Definition findCompanies (l : list CompanyModel.t) (companyIds : list string)
  : list CompanyModel.t :=
  filter (fun c => id_in (CompanyModel._id c) companyIds) l.

(** The strings of a list in the order of their first occurrence, as a
    [Set] keeps them. *)
Fixpoint distinct (l : list string) : list string :=
  match l with
  | [] => []
  | x :: r => x :: filter (fun y => negb (y =? x)) (distinct r)
  end.

(** [[...new Set([...ca.invitedCompanies, ...companyIds])]]: the stored
    ids are objects, each distinct from every other value of the set;
    the ids of the request are strings. *)
Definition union_ids (stored : list ObjectId) (companyIds : list string)
  : list ObjectId :=
  stored ++ distinct companyIds.

(** [array.length] inside a template literal. *)
Definition show_count {A} (l : list A) : string :=
  NilEmpty.string_of_uint (Nat.to_uint (length l)).

(** [!companyIds || !Array.isArray(companyIds) || companyIds.length === 0]. *)
Definition no_ids (companyIds : option (list string)) : bool :=
  match companyIds with
  | Some (_ :: _) => false
  | _ => true
  end.

(** [assignCAToCompanies]: [caId] is a route parameter, [companyIds]
    comes from the body. The [assignedCA] that the handler sets on the
    companies is not a path of the company schema. *)
Definition assignCAToCompanies (f : Faults) (caId : string)
  (companyIds : option (list string)) (db : CompanyController.Db)
  : CompanyController.Reply * CompanyController.Db :=
  match companyIds with
  | Some (id :: rest) =>
      let ids := id :: rest in
      attempt f FindCA db
        match findCA (CompanyController.users db) caId with
        | None => (CompanyController.NextAppError "CA not found" 404, db)
        | Some ca =>
            attempt f FindCompanies db
              (if negb (length (findCompanies (CompanyController.companies db) ids)
                        =? length ids)%nat
               then (CompanyController.NextAppError
                       "One or more companies not found" 404, db)
               else
                 attempt f SaveCA db
                   (let db1 :=
                      {| CompanyController.users :=
                           CompanyController.save_user
                             (CompanyController.with_invitedCompanies
                                (union_ids (invitedCompanies ca) ids) ca)
                             (CompanyController.users db);
                         CompanyController.companies :=
                           CompanyController.companies db |} in
                    attempt f UpdateCompanies db1
                      (attempt f Populate db1
                         (CompanyController.Sent 200
                            ("CA assigned to " ++ show_count ids ++
                             " company/companies successfully"), db1))))
        end
  | _ => (CompanyController.NextAppError "Company IDs array is required" 400, db)
  end.

(** [removeCAFromCompanies]. *)
Definition removeCAFromCompanies (f : Faults) (caId : string)
  (companyIds : option (list string)) (db : CompanyController.Db)
  : CompanyController.Reply * CompanyController.Db :=
  match companyIds with
  | Some (id :: rest) =>
      let ids := id :: rest in
      attempt f FindCA db
        match findCA (CompanyController.users db) caId with
        | None => (CompanyController.NextAppError "CA not found" 404, db)
        | Some ca =>
            attempt f SaveCA db
              (let db1 :=
                 {| CompanyController.users :=
                      CompanyController.save_user
                        (CompanyController.with_invitedCompanies
                           (filter (fun companyId => negb (id_in companyId ids))
                                   (invitedCompanies ca)) ca)
                        (CompanyController.users db);
                    CompanyController.companies :=
                      CompanyController.companies db |} in
               attempt f UpdateCompanies db1
                 (attempt f Populate db1
                    (CompanyController.Sent 200
                       ("CA removed from " ++ show_count ids ++
                        " company/companies successfully"), db1)))
        end
  | _ => (CompanyController.NextAppError "Company IDs array is required" 400, db)
  end.

Definition ok_faults : Faults := fun _ => None.

End AdminController.

(* ===================================================================== *)
(** ** controllers/analysis.controller.js: history and series *)
(* ===================================================================== *)

Module AnalysisHistory.

(** [String.prototype.toLowerCase] on the letters A-Z. The other
    characters stay: no character outside ASCII lowers to a letter of
    the keys tested below. *)
Definition lower (c : Ascii.ascii) : Ascii.ascii :=
  let n := Ascii.nat_of_ascii c in
  if (65 <=? n)%nat && (n <=? 90)%nat then Ascii.ascii_of_nat (n + 32) else c.

Fixpoint toLowerCase (s : string) : string :=
  match s with
  | EmptyString => EmptyString
  | String c r => String (lower c) (toLowerCase r)
  end.

(** What [statusMap[key] || 2] evaluates to: a number, or, for the two
    lower-case names that every object inherits, the object found
    there. *)
Inductive Rank :=
| Num (n : Z)
| TheConstructor      (* [statusMap.constructor], the function [Object] *)
| ThePrototype.       (* [statusMap.__proto__], [Object.prototype] *)

(** [statusMap[status?.toLowerCase()] || 2] with
    [statusMap = { excellent: 4, good: 3, fair: 2, poor: 1 }]. *)
Definition rank (health_status : string) : Rank :=
  let key := toLowerCase health_status in
  if key =? "excellent" then Num 4
  else if key =? "good" then Num 3
  else if key =? "fair" then Num 2
  else if key =? "poor" then Num 1
  else if key =? "constructor" then TheConstructor
  else if key =? "__proto__" then ThePrototype
  else Num 2.

(** [a > b]: numbers compare as numbers; an object against a number
    compares as [NaN]; the two objects compare by their strings,
    ["function Object() { [native code] }"] and ["[object Object]"]. *)
Definition gt (a b : Rank) : bool :=
  match a, b with
  | Num x, Num y => (y <? x)%Z
  | TheConstructor, ThePrototype => true
  | _, _ => false
  end.

(** An element of [formattedAnalyses]. *)
Record KeyMetrics := {
  current_ratio : option float;
  net_margin : option float;
  debt_to_equity : option float;
  roe : option float
}.

Record HistoryEntry := {
  analysis_id : string;
  date : Z;
  health_status : string;
  confidence_score : float;
  document_count : Z;
  key_metrics : KeyMetrics
}.

(** [metrics.<category>?.<name>?.current_year?.value]. *)
Definition metric_at (analysis : Analysis.t) (category name : string) : option float :=
  match find (fun kv => fst kv =? name)
             (AnalysisController.categoryData_of analysis category) with
  | Some kv => AnalysisController.metric_value (snd kv)
  | None => None
  end.

(** The callback of [analyses.map] in [getCompanyHistory]. *)
Definition formatAnalysis (analysis : Analysis.t) : HistoryEntry :=
  {| analysis_id := Analysis.analysisId analysis;
     date := Analysis.createdAt analysis;
     health_status := AnalysisController.status_or_NA (Analysis.healthAnalysis analysis);
     confidence_score := AnalysisController.score_or_0 (Analysis.healthAnalysis analysis);
     document_count := Analysis.documentCount analysis;
     key_metrics :=
       {| current_ratio := metric_at analysis "liquidity_ratios" "current_ratio";
          net_margin := metric_at analysis "profitability_ratios" "net_margin";
          debt_to_equity := metric_at analysis "leverage_ratios" "debt_to_equity";
          roe := metric_at analysis "profitability_ratios" "return_on_equity_roe" |} |}.

(** [calculateTrend]: the list is sorted from the newest analysis to
    the oldest. *)
Definition calculateTrend (analyses : list HistoryEntry) : string :=
  match analyses with
  | newest :: (_ :: _) as older =>
      let first := rank (health_status (last older newest)) in
      let last := rank (health_status newest) in
      if gt last first then "improving"
      else if gt first last then "declining"
      else "stable"
  | _ => "insufficient_data"
  end.

(** [grade_trend] of [getCompanyHistory] for the analyses found. *)
Definition grade_trend (found : list Analysis.t) : string :=
  calculateTrend (map formatAnalysis found).

(** *** Reading [metricTrends] *)

(** [metricTrends[key]]. *)
Definition get (key : string) (t : AnalysisController.MetricTrends)
  : option (list AnalysisController.Point) :=
  match find (fun kv => fst kv =? key) t with
  | Some kv => Some (snd kv)
  | None => None
  end.

(** The entry of a metric in one group of one analysis, if the group
    has the metric. *)
Definition entry_of (analysis : Analysis.t) (category name : string)
  : option (option MetricData) :=
  match find (fun kv => fst kv =? name)
             (AnalysisController.categoryData_of analysis category) with
  | Some kv => Some (snd kv)
  | None => None
  end.

(** The point an analysis contributes to the series of a metric: none
    when the metric is missing or has no value. *)
Definition point_of (analysis : Analysis.t) (category name : string)
  : list AnalysisController.Point :=
  match entry_of analysis category name with
  | Some metricData =>
      match AnalysisController.metric_value metricData with
      | Some v =>
          [ {| AnalysisController.date := Analysis.createdAt analysis;
               AnalysisController.value := v;
               AnalysisController.analysis_id := Analysis.analysisId analysis |} ]
      | None => []
      end
  | None => []
  end.

Definition series_of (analyses : list Analysis.t) (category name : string)
  : list AnalysisController.Point :=
  flat_map (fun analysis => point_of analysis category name) analyses.

(** Does some analysis have the metric in the group? *)
Definition mentioned (analyses : list Analysis.t) (category name : string) : bool :=
  existsb (fun analysis =>
             match entry_of analysis category name with
             | Some _ => true
             | None => false
             end) analyses.

(** Every group of every analysis is an object: its keys are
    distinct. *)
Definition objects (analyses : list Analysis.t) : Prop :=
  forall analysis category,
    In analysis analyses ->
    NoDup (map fst (AnalysisController.categoryData_of analysis category)).

(** An analysis that holds [current_ratio] without a value. *)
Definition sample_null (key : string) (created : Z) : Analysis.t :=
  {| Analysis._id := key; Analysis.analysisId := key;
     Analysis.company := Some "c1"; Analysis.uploadedBy := None;
     Analysis.documents := []; Analysis.documentCount := 0;
     Analysis.totalPagesProcessed := 0;
     Analysis.consolidatedData :=
       {| comprehensive_financial_metrics :=
            Some [("liquidity_ratios", [("current_ratio", None)])];
          financial_health_analysis := None |};
     Analysis.healthAnalysis := empty_health;
     Analysis.status := Analysis.completed; Analysis.jobId := None;
     Analysis.error := None; Analysis.createdAt := created;
     Analysis.updatedAt := created |}.

(** A history entry with a given status. *)
Definition entry (status : string) : HistoryEntry :=
  {| analysis_id := "A"; date := 0; health_status := status;
     confidence_score := 0%float; document_count := 0;
     key_metrics := {| current_ratio := None; net_margin := None;
                       debt_to_equity := None; roe := None |} |}.

End AnalysisHistory.

(* ===================================================================== *)
(** ** The later copy of the comparison (src/unnamed/part_011) *)
(* ===================================================================== *)

(** [src/unnamed/part_011] holds a later copy of
    controllers/analysis.controller.js. Its [buildComparisonData] takes
    the series from [calculated_metrics] and stores a unit and a category
    with every point, and its classification loop (lines 402-427) has one
    line more than the loop of lines 340-349 of the copy above:

      [if (Math.abs(first) < 0.0001) return; // Skip if first value is too close to zero]

    The loop is embedded here on the series it receives. The [change] of
    a list entry, which this copy rounds to two decimals through
    [toFixed], is not represented, and neither is the sort of the two
    lists by it, which moves entries and keeps them. *)
Module GuardedComparison.

Record Point := {
  date : Z;
  value : float;
  analysis_id : string;
  unit : string;
  category : string
}.

Definition MetricTrends := list (string * list Point).

(** An element of [improving] or [declining], without its [change]. *)
Record Change := {
  metric : string;
  first_value : float;
  last_value : float;
  change_unit : string;
  change_category : string
}.

(** [values.length >= 2] with [values[0]] and the last element. *)
Definition ends (values : list Point) : option (Point * Point) :=
  match values with
  | p :: (_ :: _) as rest => Some (p, last rest p)
  | _ => None
  end.

(** [Math.abs(first) < 0.0001]. *)
#[warnings="-inexact-float"]
Definition near_zero (first : float) : bool :=
  PrimFloat.ltb (abs first) 0.0001%float.

(** The body of the [forEach] of lines 402-427. *)
Definition classify (acc : list Change * list Change)
  (entry : string * list Point) : list Change * list Change :=
  match ends (snd entry) with
  | Some (p, q) =>
      let first := value p in
      let last := value q in
      if near_zero first then acc
      else
        let change := AnalysisController.percent_change first last in
        let listing :=
          {| metric := fst entry; first_value := first; last_value := last;
             change_unit := unit p; change_category := category p |} in
        ((if PrimFloat.ltb 5%float change then fst acc ++ [listing] else fst acc)%list,
         (if PrimFloat.ltb change (-5)%float then snd acc ++ [listing] else snd acc)%list)
  | None => acc
  end.

(** The loop on [metricTrends]: [improving] and [declining] before the
    sort. *)
Definition classify_all (t : MetricTrends) : list Change * list Change :=
  fold_left classify t ([], []).

Definition listed (key : string) (l : list Change) : bool :=
  existsb (fun c => metric c =? key) l.

(** The series of [AnalysisController.sample_series] as this copy holds
    it. *)
Definition sample_series (a b : float) : list Point :=
  [ {| date := 1; value := a; analysis_id := "A1"; unit := ""; category := "other" |};
    {| date := 2; value := b; analysis_id := "A2"; unit := ""; category := "other" |} ].

End GuardedComparison.


(* ===================================================================== *)
(** * Properties *)
(* ===================================================================== *)

(** ** Access checks *)

Section RbacFacts.
Import Rbac.

Lemma some_eq_In (ids : list ObjectId) (x : string) :
  some_eq ids x = true <-> In x ids.
Proof.
  unfold some_eq. rewrite existsb_exists. split.
  - intros [y [Hy Heq]]. apply String.eqb_eq in Heq. now subst.
  - intros H. exists x. split; [assumption | apply String.eqb_refl].
Qed.

Lemma JsBool_true_iff (b : bool) : JsBool b = JsBool true <-> b = true.
Proof. split; [intros H; now inversion H | intros ->; reflexivity]. Qed.

(** C1. [hasCompanyAccess] by role: a super admin always has access; a CA
    has access exactly to the companies in [invitedCompanies]; a company
    admin or company user has access exactly to their own [company]. *)
Theorem hasCompanyAccess_by_role (a : User) (o : string) :
  match role a with
  | SUPER_ADMIN => hasCompanyAccess a o = JsBool true
  | CA => hasCompanyAccess a o = JsBool true <-> In o (invitedCompanies a)
  | COMPANY_ADMIN | COMPANY_USER =>
      hasCompanyAccess a o = JsBool true <-> company a = Some o
  end.
Proof.
  unfold hasCompanyAccess.
  destruct (role a); try reflexivity.
  - rewrite JsBool_true_iff. apply some_eq_In.
  - destruct (company a) as [c|].
    + rewrite JsBool_true_iff, String.eqb_eq.
      split; [intros ->; reflexivity | intros H; now inversion H].
    + split; discriminate.
  - destruct (company a) as [c|].
    + rewrite JsBool_true_iff, String.eqb_eq.
      split; [intros ->; reflexivity | intros H; now inversion H].
    + split; discriminate.
Qed.

Lemma or_str_params (companyId : string) (b : option string) :
  companyId <> "" -> or_str (Some companyId) b = Some companyId.
Proof.
  intros H. unfold or_str, truthy_str.
  destruct (String.eqb_spec companyId ""); [contradiction | reflexivity].
Qed.

(** [isCompanyAdmin] on a request for an existing company, unfolded. *)
Lemma isCompanyAdmin_found companies (u : User) (c : Company) (companyId : string) :
  companyId <> "" ->
  findById companies companyId = Some c ->
  isCompanyAdmin companies (request_for u companyId) =
    if Role_eqb (role u) SUPER_ADMIN then Next
    else if role_fast_path u companyId then Next
    else if Company_isCompanyAdmin c (_id u) then Next
    else Json 403 "Access denied. Company admin privileges required.".
Proof.
  intros Hne Hfind. unfold isCompanyAdmin, request_for. cbn [params_companyId body_companyId user].
  rewrite (or_str_params _ _ Hne).
  destruct (String.eqb_spec companyId ""); [contradiction |].
  now rewrite Hfind.
Qed.

(** C2, as the code has it. For a company admin and an existing company,
    [isCompanyAdmin] lets the request through exactly when the role-based
    test or the membership test of the company document succeeds. When
    the two tests disagree the request passes; the only refusal is the
    403 given when both fail. *)
Theorem isCompanyAdmin_either_check companies (u : User) (c : Company)
  (companyId : string) :
  role u = COMPANY_ADMIN ->
  companyId <> "" ->
  findById companies companyId = Some c ->
  (isCompanyAdmin companies (request_for u companyId) = Next <->
   role_fast_path u companyId || Company_isCompanyAdmin c (_id u) = true) /\
  (role_fast_path u companyId <> Company_isCompanyAdmin c (_id u) ->
   isCompanyAdmin companies (request_for u companyId) = Next) /\
  (isCompanyAdmin companies (request_for u companyId) = Next \/
   isCompanyAdmin companies (request_for u companyId) =
     Json 403 "Access denied. Company admin privileges required.").
Proof.
  intros Hrole Hne Hfind.
  rewrite (isCompanyAdmin_found _ _ _ _ Hne Hfind), Hrole. cbn [Role_eqb].
  destruct (role_fast_path u companyId), (Company_isCompanyAdmin c (_id u));
    cbn [orb]; repeat split; auto; try discriminate; try congruence.
Qed.

Lemma isCompanyAdmin_either_check_witness :
  (isCompanyAdmin [O1] (request_for U2 "O1") = Next <->
   role_fast_path U2 "O1" || Company_isCompanyAdmin O1 (_id U2) = true) /\
  (role_fast_path U2 "O1" <> Company_isCompanyAdmin O1 (_id U2) ->
   isCompanyAdmin [O1] (request_for U2 "O1") = Next) /\
  (isCompanyAdmin [O1] (request_for U2 "O1") = Next \/
   isCompanyAdmin [O1] (request_for U2 "O1") =
     Json 403 "Access denied. Company admin privileges required.").
Proof.
  apply (isCompanyAdmin_either_check [O1] U2 O1 "O1");
    [reflexivity | discriminate | reflexivity].
Defined.

(** C2, as stated, fails: [U2] is a company admin whose [company] is [O1]
    while [O1] neither lists [U2] as admin nor has them as
    representative; the two tests disagree and the request passes. *)
Lemma isCompanyAdmin_mismatch_passes :
  ~ (forall companies (u : User) (c : Company),
        role u = COMPANY_ADMIN ->
        company_id c <> "" ->
        findById companies (company_id c) = Some c ->
        role_fast_path u (company_id c) <> Company_isCompanyAdmin c (_id u) ->
        isCompanyAdmin companies (request_for u (company_id c)) <> Next).
Proof.
  intros H.
  apply (H [O1] U2 O1); (reflexivity || discriminate).
Qed.

(** The other direction of a disagreement: [U3] is listed by [O1'] as
    admin while their own [company] is [O2]; the request passes as
    well. *)
Example listed_admin_of_other_company_passes :
  role_fast_path U3 "O1" = false /\
  Company_isCompanyAdmin O1' (_id U3) = true /\
  isCompanyAdmin [O1'] (request_for U3 "O1") = Next.
Proof. repeat split. Qed.

(** The middleware [hasCompanyAccess] lets a request through exactly
    when the method says so or the user is a super admin. *)
Lemma hasCompanyAccess_mw_Next (u : User) (companyId : string) :
  companyId <> "" ->
  (hasCompanyAccess_mw (request_for u companyId) = Next <->
   hasCompanyAccess u companyId = JsBool true).
Proof.
  intros Hne. unfold hasCompanyAccess_mw, request_for.
  cbn [params_companyId body_companyId user].
  rewrite (or_str_params _ _ Hne).
  destruct (String.eqb_spec companyId ""); [contradiction |].
  unfold hasCompanyAccess.
  destruct (role u); cbn [Role_eqb truthy]; try tauto.
  - destruct (some_eq (invitedCompanies u) companyId); split; congruence.
  - destruct (company u) as [c|]; cbn [truthy]; [| split; discriminate].
    destruct (c =? companyId); split; congruence.
  - destruct (company u) as [c|]; cbn [truthy]; [| split; discriminate].
    destruct (c =? companyId); split; congruence.
Qed.

(** C9. The representative of a company passes [isCompanyAdmin] for that
    company, whatever the [companyAdmins] list holds and whatever the
    role of the account. *)
Theorem representative_is_admin companies (u : User) (c : Company)
  (companyId : string) :
  companyId <> "" ->
  findById companies companyId = Some c ->
  representative c = _id u ->
  Company_isCompanyAdmin c (_id u) = true /\
  isCompanyAdmin companies (request_for u companyId) = Next.
Proof.
  intros Hne Hfind Hrep.
  assert (Hadm : Company_isCompanyAdmin c (_id u) = true).
  { unfold Company_isCompanyAdmin. now rewrite Hrep, String.eqb_refl. }
  split; [assumption |].
  rewrite (isCompanyAdmin_found _ _ _ _ Hne Hfind), Hadm.
  destruct (Role_eqb (role u) SUPER_ADMIN), (role_fast_path u companyId); reflexivity.
Qed.

Lemma representative_is_admin_witness :
  ~ In "U1" (companyAdmins O1) /\
  Company_isCompanyAdmin O1 (_id U1) = true /\
  isCompanyAdmin [O1] (request_for U1 "O1") = Next.
Proof.
  split; [intros [] |].
  apply (representative_is_admin [O1] U1 O1 "O1");
    [discriminate | reflexivity | reflexivity].
Defined.

End RbacFacts.

(** ** The consumer *)

Section ConsumerFacts.
Import AnalysisConsumer.
Local Open Scope list_scope.

Ltac unfold_handler :=
  unfold handleAnalysisMessage, save_analysis, sync_documents, resolve_documents,
    JSON_parse, try_catch, bind, ret, throw, console_log, console_error, emit,
    Document_find, Analysis_findOneAndUpdate, Document_updateMany in *.

(** *** Lists updated at their first match *)

Lemma update_first_Some {A} (p : A -> bool) (f : A -> A) (l l' : list A) (y : A) :
  update_first p f l = Some (l', y) ->
  exists l1 x l2,
    l = l1 ++ x :: l2 /\ forallb (fun z => negb (p z)) l1 = true /\
    p x = true /\ l' = l1 ++ f x :: l2 /\ y = f x.
Proof.
  revert l' y. induction l as [|a l IH]; intros l' y H; cbn in H; [discriminate |].
  destruct (p a) eqn:Hp.
  - inversion H; subst. exists [], a, l. cbn. auto.
  - destruct (update_first p f l) as [[r z]|] eqn:Hu; [| discriminate].
    inversion H; subst.
    destruct (IH r y eq_refl) as (l1 & x & l2 & -> & Hl1 & Hx & -> & Hy).
    exists (a :: l1), x, l2. cbn. rewrite Hp. cbn. auto.
Qed.

Lemma update_first_None {A} (p : A -> bool) (f : A -> A) (l : list A) :
  update_first p f l = None -> forallb (fun z => negb (p z)) l = true.
Proof.
  induction l as [|a l IH]; cbn; [reflexivity |].
  destruct (p a); [discriminate |].
  destruct (update_first p f l) as [[r z]|]; [discriminate |].
  intros _. now apply IH.
Qed.

Lemma filter_none {A} (p : A -> bool) (l : list A) :
  forallb (fun z => negb (p z)) l = true -> filter p l = [].
Proof.
  induction l as [|a l IH]; cbn; [reflexivity |].
  destruct (p a); cbn; [discriminate | assumption].
Qed.


Lemma find_skip {A} (p : A -> bool) (l1 l2 : list A) :
  forallb (fun z => negb (p z)) l1 = true -> find p (l1 ++ l2) = find p l2.
Proof.
  induction l1 as [|a l IH]; cbn; [reflexivity |].
  destruct (p a); cbn; [discriminate | assumption].
Qed.

(** *** The upsert *)

Lemma apply_update_key env u a :
  Analysis.analysisId (apply_update env u a) = set_analysisId u.
Proof. reflexivity. Qed.

(** The two shapes of an upsert: an update in place of the first record
    with the key, or an insertion at the end. *)
Lemma upsert_cases env key u l :
  (exists l1 x l2,
      l = l1 ++ x :: l2 /\ forallb (fun z => negb (has_key key z)) l1 = true /\
      has_key key x = true /\
      upsert env key u l = (l1 ++ apply_update env u x :: l2, apply_update env u x)) \/
  (forallb (fun z => negb (has_key key z)) l = true /\
   upsert env key u l =
     (l ++ [apply_update env u (inserted env key)],
      apply_update env u (inserted env key))).
Proof.
  unfold upsert.
  destruct (update_first (has_key key) (apply_update env u) l) as [[l' y]|] eqn:Hu.
  - left. destruct (update_first_Some _ _ _ _ _ Hu) as (l1 & x & l2 & H1 & H2 & H3 & H4 & H5).
    exists l1, x, l2. subst. auto.
  - right. split; [now apply update_first_None with (f := apply_update env u) | reflexivity].
Qed.

Lemma has_key_refl key a : Analysis.analysisId a = key -> has_key key a = true.
Proof. intros <-. apply String.eqb_refl. Qed.

Lemma has_key_eq key a : has_key key a = true -> Analysis.analysisId a = key.
Proof. apply String.eqb_eq. Qed.

(** After an upsert that sets the key it filters on, [findOne] returns
    the record written. *)
Lemma upsert_findOne env key u l :
  set_analysisId u = key ->
  find (has_key key) (fst (upsert env key u l)) = Some (snd (upsert env key u l)).
Proof.
  intros Hk.
  destruct (upsert_cases env key u l) as
    [(l1 & x & l2 & -> & Hl1 & Hx & ->) | (Hl & ->)]; cbn [fst snd].
  - rewrite find_skip by assumption. cbn [find].
    now rewrite (has_key_refl key (apply_update env u x) Hk).
  - rewrite find_skip by assumption. cbn [find].
    now rewrite (has_key_refl key (apply_update env u (inserted env key)) Hk).
Qed.

(** An upsert keeps every key that was stored. *)
Lemma upsert_keeps_keys env key u l k :
  set_analysisId u = key ->
  existsb (has_key k) l = true ->
  existsb (has_key k) (fst (upsert env key u l)) = true.
Proof.
  intros Hk H.
  destruct (upsert_cases env key u l) as
    [(l1 & x & l2 & -> & Hl1 & Hx & ->) | (Hl & ->)]; cbn [fst snd].
  - assert (Hsame : has_key k (apply_update env u x) = has_key k x).
    { unfold has_key. cbn. rewrite Hk. now rewrite (has_key_eq _ _ Hx). }
    rewrite existsb_app in *. cbn [existsb] in *.
    now rewrite Hsame.
  - rewrite existsb_app, H. reflexivity.
Qed.

Lemma upsert_has_key env key u l :
  set_analysisId u = key ->
  existsb (has_key key) (fst (upsert env key u l)) = true.
Proof.
  intros Hk. apply existsb_exists. exists (snd (upsert env key u l)).
  pose proof (upsert_findOne env key u l Hk) as H.
  apply find_some in H. exact H.
Qed.

(** *** The handler, case by case *)

Ltac step := cbn [analyses docs console fst snd negb].

Ltac split_handler env data :=
  unfold_handler; step;
  destruct (truthy_str (analysis_id data)) eqn:Hid; step;
  [ destruct (analysis_data data) as [adata|] eqn:Hdata; step;
    [ destruct (has_ids (document_ids data)) eqn:Hids; step;
      [ destruct (find_error env) as [ef|] eqn:Hfind; step | ];
      try (destruct (upsert_error env) as [eu|] eqn:Hupsert; step;
           [ | match goal with
               | |- context [upsert ?e ?k ?u ?l] =>
                   destruct (upsert e k u l) as [l' a'] eqn:Hup; step
               end;
               try rewrite Hids; step;
               try (destruct (update_error env) as [em|] eqn:Hupdate; step) ])
    | ]
  | ].

(** The handler always returns normally. *)
Lemma handle_returns env message w :
  fst (handleAnalysisMessage env message w) = Ok tt.
Proof.
  destruct message as [e|data]; [reflexivity |].
  split_handler env data; reflexivity.
Qed.

(** What one message can do to the two collections. *)
Lemma message_shape env message w :
  docs (snd (save_analysis env message w)) = docs w /\
  analyses (snd (handleAnalysisMessage env message w)) =
    analyses (snd (save_analysis env message w)) /\
  ((analyses (snd (save_analysis env message w)) = analyses w /\
    docs (snd (handleAnalysisMessage env message w)) = docs w) \/
   (exists data id u,
       message = Parsed data /\ analysis_id data = Some id /\
       set_analysisId u = id /\
       analyses (snd (save_analysis env message w)) =
         fst (upsert env id u (analyses w)) /\
       (docs (snd (handleAnalysisMessage env message w)) = docs w \/
        docs (snd (handleAnalysisMessage env message w)) =
          mark_all env (given_ids (document_ids data)) id (docs w)))).
Proof.
  destruct message as [e|data]; [cbn; auto |].
  split_handler env data; auto.
  all: split; [reflexivity |]; split; [reflexivity |]; right.
  all: destruct (analysis_id data) as [id|] eqn:Hsome; [| discriminate]; cbn in *.
  all: eexists data, id, _; rewrite Hup; cbn; repeat split; auto.
Qed.

Lemma valid_truthy data id adata :
  valid data id adata -> truthy_str (analysis_id data) = true.
Proof.
  intros (Hid & Hne & _). rewrite Hid. cbn.
  destruct (String.eqb_spec id ""); [contradiction | reflexivity].
Qed.

Lemma valid_no_error data id adata :
  valid data id adata -> validation_error data = None.
Proof.
  intros H. unfold validation_error.
  rewrite (valid_truthy _ _ _ H). destruct H as (_ & _ & ->). reflexivity.
Qed.

(** A message that fails the validation: nothing is written, the error
    is printed, the handler returns. *)
Lemma handle_invalid env data e w :
  validation_error data = Some e ->
  handleAnalysisMessage env (Parsed data) w =
    (Ok tt, {| analyses := analyses w; docs := docs w;
               console := console w ++ receipt_lines data ++ failure_lines e |}).
Proof.
  unfold validation_error. intros H.
  unfold_handler; step.
  destruct (truthy_str (analysis_id data)); step.
  - destruct (analysis_data data) eqn:Hd; [discriminate |].
    inversion H; subst. step.
    unfold receipt_lines, failure_lines. rewrite Hd, <- !app_assoc.
    reflexivity.
  - inversion H; subst. step.
    unfold receipt_lines, failure_lines. rewrite <- !app_assoc. reflexivity.
Qed.

(** A valid message when no database call is rejected. *)
Lemma handle_valid env data id adata w :
  valid data id adata ->
  no_fault env ->
  handleAnalysisMessage env (Parsed data) w =
    (Ok tt,
     {| analyses :=
          fst (upsert env id (update_of data id adata (resolved data (docs w)))
                 (analyses w));
        docs := synced env data id (docs w);
        console :=
          console w ++ receipt_lines data ++ progress_lines data id ++
          success_lines id
            (snd (upsert env id (update_of data id adata (resolved data (docs w)))
                    (analyses w))) |}).
Proof.
  intros Hv (Hf & Hu & Hm).
  pose proof (valid_truthy _ _ _ Hv) as Ht.
  destruct Hv as (Hid & Hne & Hdata).
  unfold resolved, synced.
  unfold_handler; step. rewrite Ht, Hdata; step. rewrite Hid. cbn [show].
  destruct (has_ids (document_ids data)) eqn:Hids; step.
  - rewrite Hf; step. rewrite Hu; step.
    destruct (upsert env id _ (analyses w)) as [l a]; step.
    rewrite Hids, Hm; step.
    unfold receipt_lines, progress_lines, success_lines.
    rewrite Hid, Hdata, <- !app_assoc. reflexivity.
  - rewrite Hu; step.
    destruct (upsert env id _ (analyses w)) as [l a]; step.
    rewrite Hids; step.
    unfold receipt_lines, progress_lines, success_lines.
    rewrite Hid, Hdata, <- !app_assoc. reflexivity.
Qed.

(** *** The subscription *)

Lemma subscription_step env message rest w :
  subscription ((env, message) :: rest) w =
  subscription rest (snd (handleAnalysisMessage env message w)).
Proof.
  cbn [subscription]. unfold bind.
  pose proof (handle_returns env message w) as H.
  destruct (handleAnalysisMessage env message w) as [o w']. cbn in H. now subst.
Qed.

Lemma subscription_returns deliveries w :
  fst (subscription deliveries w) = Ok tt.
Proof.
  revert w. induction deliveries as [|[env message] rest IH]; intros w.
  - reflexivity.
  - rewrite subscription_step. apply IH.
Qed.

Lemma lacking_validation_error data :
  truthy_str (analysis_id data) = false \/ analysis_data data = None ->
  exists e,
    validation_error data = Some e /\
    (e = {| message := "Missing analysis_id in message" |} \/
     e = {| message := "Missing analysis_data in message" |}).
Proof.
  unfold validation_error. intros [H | H].
  - rewrite H. cbn. eauto.
  - rewrite H. destruct (truthy_str (analysis_id data)); cbn; eauto.
Qed.

(** C5, as the code has it. A message without [analysis_id] or without
    [analysis_data] writes to no collection; the handler prints the four
    receipt lines (the first shows the [analysis_id], if there is one)
    and then the thrown error and its stack, which name the missing
    field and not the analysis; it returns normally and the subscription
    goes on with the next message. No run of the subscription ends with
    an exception. *)
Theorem invalid_message_dropped env data w :
  truthy_str (analysis_id data) = false \/ analysis_data data = None ->
  (exists e,
      (e = {| message := "Missing analysis_id in message" |} \/
       e = {| message := "Missing analysis_data in message" |}) /\
      handleAnalysisMessage env (Parsed data) w =
        (Ok tt, {| analyses := analyses w; docs := docs w;
                   console := console w ++ receipt_lines data ++ failure_lines e |})) /\
  (forall rest,
      subscription ((env, Parsed data) :: rest) w =
      subscription rest (snd (handleAnalysisMessage env (Parsed data) w))) /\
  (forall deliveries w0, fst (subscription deliveries w0) = Ok tt).
Proof.
  intros H. destruct (lacking_validation_error data H) as (e & He & Hmsg).
  split; [| split].
  - exists e. split; [assumption |]. now apply handle_invalid.
  - intros rest. apply subscription_step.
  - apply subscription_returns.
Qed.

Lemma invalid_message_dropped_witness :
  analyses (snd (handleAnalysisMessage env0 (Parsed message_no_data) store0)) = [] /\
  docs (snd (handleAnalysisMessage env0 (Parsed message_no_data) store0)) = [D1] /\
  fst (subscription [(env0, Parsed message_no_data); (env1, Parsed message_A1)] store0)
    = Ok tt.
Proof.
  destruct (invalid_message_dropped env0 message_no_data store0 (or_intror eq_refl))
    as ((e & _ & Hrun) & _ & Hloop).
  rewrite Hrun. split; [reflexivity | split; [reflexivity | apply Hloop]].
Defined.

(** C5, as stated, fails on the log: for the message [message_no_data],
    whose [analysis_id] is [A1], no line printed with [console.error]
    shows [A1]. *)
Lemma failure_log_lacks_analysis_id :
  ~ (forall env data w id,
        analysis_id data = Some id ->
        analysis_data data = None ->
        existsb (fun e => is_error e && mentions id e)
          (console (snd (handleAnalysisMessage env (Parsed data) w))) = true).
Proof.
  intros H.
  specialize (H env0 message_no_data store0 "A1" eq_refl eq_refl).
  vm_compute in H. discriminate.
Qed.

(** *** The uploader of a stored analysis *)

Lemma find_app_split {A} (p : A -> bool) (l1 l2 : list A) :
  find p (l1 ++ l2) =
  match find p l1 with
  | Some a => Some a
  | None => find p l2
  end.
Proof.
  induction l1 as [|a l IH]; cbn; [reflexivity |].
  destruct (p a); [reflexivity | assumption].
Qed.

Lemma apply_update_has_key env u x key k :
  set_analysisId u = key -> has_key key x = true ->
  has_key k (apply_update env u x) = has_key k x.
Proof.
  intros Hk Hx. unfold has_key. cbn.
  now rewrite Hk, (has_key_eq _ _ Hx).
Qed.

(** An upsert neither changes the uploader of a stored record nor gives
    one to the record it inserts. *)
Lemma upsert_uploadedBy env key u l k :
  set_analysisId u = key ->
  (forall r, find (has_key k) l = Some r ->
     exists r', find (has_key k) (fst (upsert env key u l)) = Some r' /\
                Analysis.uploadedBy r' = Analysis.uploadedBy r) /\
  (find (has_key k) l = None ->
   forall r', find (has_key k) (fst (upsert env key u l)) = Some r' ->
              Analysis.uploadedBy r' = None) /\
  (exists fresh,
      map Analysis.uploadedBy (fst (upsert env key u l)) =
        map Analysis.uploadedBy l ++ fresh /\
      Forall (eq None) fresh).
Proof.
  intros Hk.
  destruct (upsert_cases env key u l) as
    [(l1 & x & l2 & -> & Hl1 & Hx & ->) | (Hl & ->)]; cbn [fst snd].
  - pose proof (apply_update_has_key env u x key k Hk Hx) as Hsame.
    rewrite !find_app_split. cbn [find]. rewrite Hsame.
    split; [| split].
    + intros r Hr. destruct (find (has_key k) l1) as [a|].
      * exists a. split; [reflexivity | congruence].
      * destruct (has_key k x).
        -- inversion Hr; subst. eexists. split; reflexivity.
        -- eauto.
    + intros Hnone r' Hr'. destruct (find (has_key k) l1); [discriminate |].
      destruct (has_key k x); [discriminate | congruence].
    + exists []. split; [| constructor].
      rewrite !map_app, app_nil_r. reflexivity.
  - rewrite find_app_split. cbn [find].
    split; [| split].
    + intros r Hr. rewrite Hr. eauto.
    + intros Hnone r' Hr'. rewrite Hnone in Hr'.
      destruct (has_key k (apply_update env u (inserted env key))); [| discriminate].
      inversion Hr'; subst. reflexivity.
    + exists [None]. split; [| repeat constructor].
      rewrite map_app. reflexivity.
Qed.

(** C10. The handler never writes [uploadedBy]: a record that was stored
    keeps its uploader, a record that the message inserts has none, and
    this holds for every message and every outcome of the database
    calls. *)
Theorem upsert_never_writes_uploadedBy env message w key :
  (forall r, findOne key w = Some r ->
     exists r', findOne key (snd (handleAnalysisMessage env message w)) = Some r' /\
                Analysis.uploadedBy r' = Analysis.uploadedBy r) /\
  (findOne key w = None ->
   forall r', findOne key (snd (handleAnalysisMessage env message w)) = Some r' ->
              Analysis.uploadedBy r' = None) /\
  (exists fresh,
      map Analysis.uploadedBy (analyses (snd (handleAnalysisMessage env message w))) =
        map Analysis.uploadedBy (analyses w) ++ fresh /\
      Forall (eq None) fresh).
Proof.
  unfold findOne.
  destruct (message_shape env message w) as (_ & -> & [[-> _] | Hw]).
  - split; [| split].
    + intros r Hr. eauto.
    + intros Hnone r' Hr'. congruence.
    + exists []. split; [now rewrite app_nil_r | constructor].
  - destruct Hw as (data & id & u & _ & _ & Hk & -> & _).
    apply upsert_uploadedBy. exact Hk.
Qed.

(** *** Documents are marked after the upsert *)

Lemma refs_ok_intro w :
  (forall d a, In d (docs w) -> Document.status d = Document.analyzed ->
               Document.analysisId d = Some a ->
               existsb (has_key a) (analyses w) = true) ->
  analyzed_refs_ok w = true.
Proof.
  intros H. unfold analyzed_refs_ok. apply forallb_forall. intros d Hd.
  destruct (Document.status d) eqn:Hs; try reflexivity.
  destruct (Document.analysisId d) as [a|] eqn:Ha; [| reflexivity].
  now apply (H d a).
Qed.

Lemma refs_ok_elim w d a :
  analyzed_refs_ok w = true ->
  In d (docs w) -> Document.status d = Document.analyzed ->
  Document.analysisId d = Some a ->
  existsb (has_key a) (analyses w) = true.
Proof.
  unfold analyzed_refs_ok. intros H Hd Hs Ha.
  rewrite forallb_forall in H. specialize (H d Hd). now rewrite Hs, Ha in H.
Qed.

(** The invariant survives when the documents stay and no key is lost. *)
Lemma refs_ok_mono w w' :
  docs w' = docs w ->
  (forall k, existsb (has_key k) (analyses w) = true ->
             existsb (has_key k) (analyses w') = true) ->
  analyzed_refs_ok w = true -> analyzed_refs_ok w' = true.
Proof.
  intros Hd Hk H. apply refs_ok_intro. intros d a Hin Hs Ha.
  apply Hk. rewrite Hd in Hin. now apply (refs_ok_elim w d a).
Qed.

(** Marking documents with a key that is stored keeps the invariant. *)
Lemma refs_ok_marked env ids id w w' :
  docs w' = mark_all env ids id (docs w) ->
  analyses w' = analyses w ->
  existsb (has_key id) (analyses w) = true ->
  analyzed_refs_ok w = true -> analyzed_refs_ok w' = true.
Proof.
  intros Hd Ha Hid H. apply refs_ok_intro. intros d a Hin Hs Hda.
  rewrite Ha. rewrite Hd in Hin. unfold mark_all in Hin.
  apply in_map_iff in Hin. destruct Hin as (d0 & Heq & Hin0).
  destruct (id_in (Document._id d0) ids).
  - subst d. cbn in Hda. inversion Hda; subst. exact Hid.
  - subst d0. now apply (refs_ok_elim w d a).
Qed.

(** One message keeps the invariant in the two stores it produces. *)
Lemma message_keeps_refs env message w :
  analyzed_refs_ok w = true ->
  analyzed_refs_ok (snd (save_analysis env message w)) = true /\
  analyzed_refs_ok (snd (handleAnalysisMessage env message w)) = true.
Proof.
  intros H.
  destruct (message_shape env message w) as (Hd1 & Ha2 & [[Ha1 Hd2] | Hw]).
  - split; apply (refs_ok_mono w); auto; intros k; congruence.
  - destruct Hw as (data & id & u & _ & _ & Hk & Ha1 & Hd2).
    assert (H1 : analyzed_refs_ok (snd (save_analysis env message w)) = true).
    { apply (refs_ok_mono w); auto. intros k Hex. rewrite Ha1.
      now apply upsert_keeps_keys. }
    split; [exact H1 |].
    destruct Hd2 as [Hd2 | Hd2].
    + apply (refs_ok_mono (snd (save_analysis env message w))); auto.
      * congruence.
      * intros k. congruence.
    + apply (refs_ok_marked env (given_ids (document_ids data)) id
               (snd (save_analysis env message w))); auto.
      * congruence.
      * rewrite Ha1. now apply upsert_has_key.
Qed.

(** If the first part of the handler throws (validation, document
    lookup or upsert), no document is touched. *)
Lemma save_thrown_no_sync env message w e :
  fst (save_analysis env message w) = Thrown e ->
  docs (snd (handleAnalysisMessage env message w)) = docs w.
Proof.
  destruct message as [e0|data]; [reflexivity |].
  split_handler env data; intros H; try reflexivity; discriminate.
Qed.

Lemma reachable_keeps_refs deliveries w :
  analyzed_refs_ok w = true ->
  Forall (fun w' => analyzed_refs_ok w' = true) (reachable deliveries w).
Proof.
  revert w. induction deliveries as [|[env message] rest IH]; intros w H.
  - cbn. auto.
  - cbn [reachable states].
    destruct (message_keeps_refs env message w H) as [H1 H2].
    repeat (apply Forall_cons; [assumption |]).
    cbn [app]. apply IH. exact H2.
Qed.

(** C4. From a store in which every analyzed document names a stored
    analysis, every store that the handler passes through has the same
    property, over any sequence of deliveries and any outcome of the
    database calls. Within one message no document changes before the
    upsert call has returned, and none changes at all when that call, or
    anything before it, throws. *)
Theorem analyzed_only_after_upsert deliveries w :
  analyzed_refs_ok w = true ->
  Forall (fun w' => analyzed_refs_ok w' = true) (reachable deliveries w) /\
  (forall env message, docs (snd (save_analysis env message w)) = docs w) /\
  (forall env message e,
      fst (save_analysis env message w) = Thrown e ->
      docs (snd (handleAnalysisMessage env message w)) = docs w).
Proof.
  intros H. split; [| split].
  - now apply reachable_keeps_refs.
  - intros env message. apply (message_shape env message w).
  - intros env message e. apply save_thrown_no_sync.
Qed.

Lemma analyzed_only_after_upsert_witness :
  Forall (fun w' => analyzed_refs_ok w' = true)
    (reachable [(env0, Parsed message_A1); (env1, Parsed message_no_data)] store0).
Proof.
  apply (analyzed_only_after_upsert
           [(env0, Parsed message_A1); (env1, Parsed message_no_data)] store0).
  reflexivity.
Defined.

(** *** Ingesting a message twice *)

Lemma snapshot_mark env id d : snapshot (mark_analyzed env id d) = snapshot d.
Proof. reflexivity. Qed.





Lemma upsert_at env key u l1 y l2 :
  forallb (fun z => negb (has_key key z)) l1 = true ->
  has_key key y = true ->
  upsert env key u (l1 ++ y :: l2) =
    (l1 ++ apply_update env u y :: l2, apply_update env u y).
Proof.
  intros Hl1 Hy. unfold upsert.
  assert (Hu : update_first (has_key key) (apply_update env u) (l1 ++ y :: l2) =
               Some (l1 ++ apply_update env u y :: l2, apply_update env u y)).
  { induction l1 as [|a l IH]; cbn in *.
    - now rewrite Hy.
    - apply andb_prop in Hl1. destruct Hl1 as [Ha Hl].
      destruct (has_key key a); [discriminate |].
      now rewrite (IH Hl). }
  now rewrite Hu.
Qed.


Lemma count_key_one key l1 x l2 :
  forallb (fun z => negb (has_key key z)) l1 = true ->
  has_key key x = true ->
  forallb (fun z => negb (has_key key z)) l2 = true ->
  count_key key (l1 ++ x :: l2) = 1%nat.
Proof.
  intros H1 Hx H2. unfold count_key.
  rewrite filter_app. cbn [filter]. rewrite Hx.
  now rewrite (filter_none _ _ H1), (filter_none _ _ H2).
Qed.

Lemma filter_nil_none {A} (p : A -> bool) (l : list A) :
  filter p l = [] -> forallb (fun z => negb (p z)) l = true.
Proof.
  induction l as [|a l IH]; cbn; [reflexivity |].
  destruct (p a); [discriminate | assumption].
Qed.

Lemma count_key_rest key l1 x l2 :
  has_key key x = true ->
  (count_key key (l1 ++ x :: l2) <= 1)%nat ->
  forallb (fun z => negb (has_key key z)) l2 = true.
Proof.
  unfold count_key. intros Hx H.
  rewrite filter_app, length_app in H. cbn [filter] in H. rewrite Hx in H.
  cbn [length] in H. apply filter_nil_none.
  destruct (filter (has_key key) l2); [reflexivity | cbn in H; lia].
Qed.



Lemma valid_message_A1 : valid message_A1 "A1" empty_data.
Proof. repeat split. discriminate. Qed.

Lemma no_fault_env0 : no_fault env0.
Proof. repeat split. Qed.

Lemma no_fault_env1 : no_fault env1.
Proof. repeat split. Qed.



(** *** The document snapshot *)

Lemma id_in_In x ids : id_in x ids = true <-> In x ids.
Proof.
  unfold id_in. rewrite existsb_exists. split.
  - intros (y & Hy & Heq). apply String.eqb_eq in Heq. now subst.
  - intros H. exists x. split; [assumption | apply String.eqb_refl].
Qed.

Lemma snapshot_ids l :
  map Analysis.documentId (map snapshot l) = map Document._id l.
Proof. rewrite map_map. reflexivity. Qed.

Lemma matching_ids_In ids l x :
  In x (map Document._id (matching ids l)) <->
  In x ids /\ In x (map Document._id l).
Proof.
  unfold matching. rewrite !in_map_iff. split.
  - intros (d & <- & Hd). apply filter_In in Hd. destruct Hd as [Hin Hid].
    split; [now apply id_in_In | now exists d].
  - intros (Hx & d & <- & Hd). exists d. split; [reflexivity |].
    apply filter_In. split; [assumption | now apply id_in_In].
Qed.

Lemma matching_NoDup ids l :
  NoDup (map Document._id l) -> NoDup (map Document._id (matching ids l)).
Proof.
  unfold matching. induction l as [|d l IH]; cbn [map filter]; intros H.
  - constructor.
  - inversion H as [|? ? Hnot Hrest]; subst.
    destruct (id_in (Document._id d) ids); [| now apply IH].
    cbn [map]. constructor; [| now apply IH].
    intros Hin. apply Hnot. apply in_map_iff in Hin.
    destruct Hin as (d' & Heq & Hd'). apply filter_In in Hd'.
    apply in_map_iff. exists d'. tauto.
Qed.

Lemma mark_all_ids env ids id l :
  map Document._id (mark_all env ids id l) = map Document._id l.
Proof.
  unfold mark_all. rewrite map_map. apply map_ext. intros d.
  now destruct (id_in (Document._id d) ids).
Qed.

Lemma mark_all_In env ids id l d :
  In d (mark_all env ids id l) ->
  (In (Document._id d) ids /\ Document.status d = Document.analyzed /\
   Document.analysisId d = Some id) \/
  (~ In (Document._id d) ids /\ In d l).
Proof.
  unfold mark_all. rewrite in_map_iff. intros (d0 & Heq & Hd0).
  destruct (id_in (Document._id d0) ids) eqn:Hid.
  - left. subst d. cbn. split; [now apply id_in_In | auto].
  - right. subst d0. split; [| assumption].
    intros Hin. apply id_in_In in Hin. congruence.
Qed.

Lemma has_ids_Some ids : ids <> [] -> has_ids (Some ids) = true.
Proof. destruct ids; [contradiction | reflexivity]. Qed.

(** C8. For a valid message that carries a non-empty [document_ids],
    when no database call is rejected: the stored analysis lists exactly
    one snapshot for every id of the message that names a stored
    document and none for the other ids; each snapshot holds the id of
    its document, the document's original name (its stored file name
    when the original name is empty) and its file type; exactly the
    named documents that exist become [analyzed] with the [analysisId]
    of the message, no document is created for an unknown id, the
    handler returns normally and prints no error. *)
Theorem snapshot_lists_existing_documents env data id adata ids w :
  valid data id adata ->
  no_fault env ->
  document_ids data = Some ids ->
  ids <> [] ->
  NoDup (map Document._id (docs w)) ->
  fst (handleAnalysisMessage env (Parsed data) w) = Ok tt /\
  filter is_error (console (snd (handleAnalysisMessage env (Parsed data) w))) =
    filter is_error (console w) /\
  (exists r,
      findOne id (snd (handleAnalysisMessage env (Parsed data) w)) = Some r /\
      Analysis.documents r = map snapshot (matching ids (docs w)) /\
      NoDup (map Analysis.documentId (Analysis.documents r)) /\
      (forall x, In x (map Analysis.documentId (Analysis.documents r)) <->
                 In x ids /\ In x (map Document._id (docs w))) /\
      (forall s, In s (Analysis.documents r) <->
                 exists d,
                   In d (docs w) /\ In (Document._id d) ids /\
                   Analysis.documentId s = Document._id d /\
                   Analysis.filename s =
                     (if Document.originalName d =? "" then Document.filename d
                      else Document.originalName d) /\
                   Analysis.fileType s = Document.fileType d)) /\
  docs (snd (handleAnalysisMessage env (Parsed data) w)) =
    mark_all env ids id (docs w) /\
  map Document._id (docs (snd (handleAnalysisMessage env (Parsed data) w))) =
    map Document._id (docs w) /\
  (forall d, In d (docs (snd (handleAnalysisMessage env (Parsed data) w))) ->
     (In (Document._id d) ids /\ Document.status d = Document.analyzed /\
      Document.analysisId d = Some id) \/
     (~ In (Document._id d) ids /\ In d (docs w))).
Proof.
  intros Hv Hf Hids Hne Hnd.
  rewrite (handle_valid env data id adata w Hv Hf). cbn [fst snd docs console].
  unfold synced, resolved. rewrite Hids, (has_ids_Some ids Hne). cbn [given_ids].
  split; [reflexivity |]. split.
  { rewrite !filter_app. cbn. now rewrite app_nil_r. }
  split.
  { set (u := update_of data id adata (map snapshot (matching ids (docs w)))).
    exists (snd (upsert env id u (analyses w))).
    split; [apply (upsert_findOne env id u (analyses w) eq_refl) |].
    assert (Hdocs : Analysis.documents (snd (upsert env id u (analyses w))) =
                    map snapshot (matching ids (docs w))).
    { destruct (upsert_cases env id u (analyses w)) as
        [(la & x & lb & _ & _ & _ & ->) | (_ & ->)]; reflexivity. }
    rewrite Hdocs, snapshot_ids.
    split; [reflexivity |]. split; [now apply matching_NoDup |].
    split; [intros x; apply matching_ids_In |].
    intros s. rewrite in_map_iff. unfold matching. split.
    - intros (d & <- & Hd). apply filter_In in Hd. destruct Hd as [Hin Hid].
      exists d. split; [assumption |]. split; [now apply id_in_In |].
      repeat split.
    - intros (d & Hin & Hid & Hi & Hf' & Ht). exists d.
      split; [destruct s as [i f t]; cbn in Hi, Hf', Ht; subst; reflexivity |].
      apply filter_In. split; [assumption | now apply id_in_In]. }
  split; [reflexivity |]. split; [apply mark_all_ids |].
  intros d. apply mark_all_In.
Qed.

(** The scenario of C8: the message names [D1] and [D2], only [D1] is
    stored. The analysis lists the one snapshot of [D1], with its
    original name and its file type; [D1] becomes [analyzed] and the
    handler returns normally. *)
Lemma snapshot_lists_existing_documents_witness :
  exists r,
    findOne "A1" (snd (handleAnalysisMessage env0 (Parsed message_A1) store0)) = Some r /\
    Analysis.documents r =
      [ {| Analysis.documentId := "D1"; Analysis.filename := "balance.pdf";
           Analysis.fileType := "pdf" |} ] /\
    map Document.status
      (docs (snd (handleAnalysisMessage env0 (Parsed message_A1) store0))) =
      [Document.analyzed] /\
    fst (handleAnalysisMessage env0 (Parsed message_A1) store0) = Ok tt.
Proof.
  destruct (snapshot_lists_existing_documents env0 message_A1 "A1" empty_data
              ["D1"; "D2"] store0 valid_message_A1 no_fault_env0 eq_refl)
    as (Hok & _ & (r & Hr & Hdocs & _) & Hmarked & _).
  - discriminate.
  - repeat constructor. intros [].
  - exists r. rewrite Hdocs, Hmarked.
    split; [exact Hr |]. split; [reflexivity |]. split; [reflexivity | exact Hok].
Defined.

End ConsumerFacts.

(** ** The comparison *)

Section ComparisonFacts.
Import AnalysisController.
Local Open Scope list_scope.

Lemma fold_left_inv {A B} (P : A -> Prop) (f : A -> B -> A) (l : list B) :
  (forall a b, P a -> P (f a b)) -> forall a, P a -> P (fold_left f l a).
Proof.
  intros Hf. induction l as [|b l IH]; intros a Ha; cbn; [assumption |].
  apply IH. now apply Hf.
Qed.

(** *** The keys of [metricTrends] are distinct *)

Lemma has_metric_false key (t : MetricTrends) :
  has_metric key t = false -> ~ In key (map fst t).
Proof.
  unfold has_metric. intros H Hin. apply in_map_iff in Hin.
  destruct Hin as (kv & Hk & Hkv).
  assert (Hex : existsb (fun kv => fst kv =? key)%string t = true).
  { apply existsb_exists. exists kv. split; [assumption |].
    rewrite Hk. apply String.eqb_refl. }
  congruence.
Qed.

Lemma ensure_NoDup key (t : MetricTrends) :
  NoDup (map fst t) -> NoDup (map fst (ensure key t)).
Proof.
  intros H. unfold ensure. destruct (has_metric key t) eqn:Hm; [assumption |].
  rewrite map_app. cbn [map fst].
  apply NoDup_app; [assumption | repeat constructor; intros [] |].
  intros x Hx [<- | []]. now apply (has_metric_false _ _ Hm).
Qed.

Lemma push_keys key p (t : MetricTrends) : map fst (push key p t) = map fst t.
Proof.
  unfold push. rewrite map_map. apply map_ext. intros kv.
  now destruct (fst kv =? key)%string.
Qed.

Lemma add_entry_NoDup analysis category t entry :
  NoDup (map fst t) -> NoDup (map fst (add_entry analysis category t entry)).
Proof.
  intros H. unfold add_entry.
  destruct (metric_value (snd entry)).
  - rewrite push_keys. now apply ensure_NoDup.
  - now apply ensure_NoDup.
Qed.

Lemma extract_trends_NoDup analyses : NoDup (map fst (extract_trends analyses)).
Proof.
  unfold extract_trends.
  apply fold_left_inv; [| constructor].
  intros t category Ht. apply fold_left_inv; [| assumption].
  intros t' analysis Ht'. apply fold_left_inv; [| assumption].
  intros t'' entry Ht''. now apply add_entry_NoDup.
Qed.

(** *** The classification loop *)

Lemma listed_snoc key l c :
  listed key (l ++ [c]) = listed key l || (metric c =? key)%string.
Proof. unfold listed. rewrite existsb_app. cbn. now rewrite orb_false_r. Qed.

Lemma classify_fold (t : MetricTrends) :
  forall acc key,
    listed key (fst (fold_left classify t acc)) =
      listed key (fst acc) || existsb (fun e => (fst e =? key)%string && rises e) t /\
    listed key (snd (fold_left classify t acc)) =
      listed key (snd acc) || existsb (fun e => (fst e =? key)%string && falls e) t.
Proof.
  induction t as [|e t IH]; intros acc key; cbn [fold_left existsb].
  - now rewrite !orb_false_r.
  - destruct (IH (classify acc e) key) as [-> ->].
    unfold classify, rises, falls.
    destruct (ends (snd e)) as [[first last]|]; cbn [fst snd].
    + destruct (PrimFloat.ltb 5 (percent_change first last)),
        (PrimFloat.ltb (percent_change first last) (-5));
        rewrite ?listed_snoc; cbn [metric]; rewrite ?andb_true_r, ?andb_false_r;
        split;
        destruct (listed key (fst acc)), (listed key (snd acc)),
          (fst e =? key)%string; reflexivity.
    + now rewrite !andb_false_r.
Qed.

Lemma existsb_unique {B} (t : list (string * B)) key v (q : string * B -> bool) :
  NoDup (map fst t) -> In (key, v) t ->
  existsb (fun e => (fst e =? key)%string && q e) t = q (key, v).
Proof.
  induction t as [|e t IH]; cbn [map existsb In]; intros Hnd Hin; [contradiction |].
  inversion Hnd as [|? ? Hnot Hrest]; subst.
  destruct Hin as [-> | Hin].
  - cbn [fst]. rewrite String.eqb_refl. cbn [andb].
    destruct (q (key, v)); [reflexivity |]. cbn [orb].
    apply not_true_is_false. intros Hex. apply existsb_exists in Hex.
    destruct Hex as (e' & He' & Htest). apply andb_prop in Htest.
    destruct Htest as [Hk _]. apply String.eqb_eq in Hk.
    apply Hnot. apply in_map_iff. exists e'. auto.
  - rewrite (IH Hrest Hin).
    destruct (String.eqb_spec (fst e) key) as [Heq | Hne]; [| reflexivity].
    exfalso. apply Hnot. apply in_map_iff. exists (key, v). auto.
Qed.

(** A metric is listed as improving, or declining, exactly when its own
    series passes the test. *)
Lemma listed_by_series analyses key values :
  In (key, values) (metric_trends (buildComparisonData analyses)) ->
  listed key (improving_metrics (buildComparisonData analyses)) = rises (key, values) /\
  listed key (declining_metrics (buildComparisonData analyses)) = falls (key, values).
Proof.
  unfold buildComparisonData.
  destruct (fold_left classify (extract_trends analyses) ([], [])) as [imp dec] eqn:Hfold.
  cbn [metric_trends improving_metrics declining_metrics]. intros Hin.
  destruct (classify_fold (extract_trends analyses) ([], []) key) as [Hi Hd].
  rewrite Hfold in Hi, Hd. cbn [fst snd] in Hi, Hd.
  change (listed key []) with false in Hi, Hd. cbn [orb] in Hi, Hd.
  rewrite Hi, Hd.
  split; apply existsb_unique; auto using extract_trends_NoDup.
Qed.

(** [values[0]] and [values[values.length - 1]] of a series of two or
    more points. *)
Lemma last_nth_error {A} (l : list A) (d x : A) :
  nth_error (d :: l) (length l) = Some x -> last l d = x.
Proof.
  revert d. induction l as [|a l IH]; intros d H.
  - cbn in H. now inversion H.
  - cbn [length nth_error] in H. cbn [last].
    destruct l as [|b l'].
    + cbn in H. now inversion H.
    + now apply IH.
Qed.

Lemma ends_spec values p0 pn :
  (2 <= length values)%nat ->
  nth_error values 0 = Some p0 ->
  nth_error values (length values - 1) = Some pn ->
  ends values = Some (value p0, value pn).
Proof.
  destruct values as [|p [|q rest]]; cbn [length]; try lia.
  intros _ H0 Hn. cbn in H0. inversion H0; subst p0.
  unfold ends.
  replace (S (S (length rest)) - 1)%nat with (S (length (q :: rest)) - 1)%nat in Hn
    by reflexivity.
  cbn [Nat.sub] in Hn. rewrite Nat.sub_0_r in Hn.
  cbn [nth_error] in Hn.
  now rewrite (last_nth_error (q :: rest) p pn Hn).
Qed.

Lemma listed_by_ends analyses key values p0 pn :
  In (key, values) (metric_trends (buildComparisonData analyses)) ->
  (2 <= length values)%nat ->
  nth_error values 0 = Some p0 ->
  nth_error values (length values - 1) = Some pn ->
  listed key (improving_metrics (buildComparisonData analyses)) =
    PrimFloat.ltb 5 (percent_change (value p0) (value pn)) /\
  listed key (declining_metrics (buildComparisonData analyses)) =
    PrimFloat.ltb (percent_change (value p0) (value pn)) (-5).
Proof.
  intros Hin Hlen H0 Hn.
  destruct (listed_by_series analyses key values Hin) as [-> ->].
  unfold rises, falls. cbn [snd].
  now rewrite (ends_spec values p0 pn Hlen H0 Hn).
Qed.

Lemma sample_pair_trends a b :
  metric_trends (buildComparisonData (sample_pair a b)) = [(sample_key, sample_series a b)].
Proof.
  unfold buildComparisonData.
  destruct (fold_left classify (extract_trends (sample_pair a b)) ([], [])).
  reflexivity.
Qed.

Lemma sample_pair_In a b :
  In (sample_key, sample_series a b) (metric_trends (buildComparisonData (sample_pair a b))).
Proof. rewrite sample_pair_trends. now left. Qed.

(** C7. For a metric whose series has two or more points, with
    [change = (last - first) / |first| * 100] computed from the first and
    the last point: the metric is listed in [improving_metrics] exactly
    when [change > 5] and in [declining_metrics] exactly when
    [change < -5]; otherwise it is in neither list. The series returned
    in [metric_trends] are the extracted ones, whatever the
    classification. *)
Theorem classification_by_percent_change analyses key values p0 pn :
  In (key, values) (metric_trends (buildComparisonData analyses)) ->
  (2 <= length values)%nat ->
  nth_error values 0 = Some p0 ->
  nth_error values (length values - 1) = Some pn ->
  listed key (improving_metrics (buildComparisonData analyses)) =
    PrimFloat.ltb 5 (percent_change (value p0) (value pn)) /\
  listed key (declining_metrics (buildComparisonData analyses)) =
    PrimFloat.ltb (percent_change (value p0) (value pn)) (-5) /\
  percent_change (value p0) (value pn) =
    ((value pn - value p0) / abs (value p0) * 100)%float /\
  metric_trends (buildComparisonData analyses) = extract_trends analyses.
Proof.
  intros Hin Hlen H0 Hn.
  destruct (listed_by_ends analyses key values p0 pn Hin Hlen H0 Hn) as [Hi Hd].
  repeat split; try assumption.
  unfold buildComparisonData.
  destruct (fold_left classify (extract_trends analyses) ([], [])). reflexivity.
Qed.

(** The examples of C7: 100 to 108 is a change of 8 and improving, 100 to
    104 a change of 4 and in neither list, 100 to 94 a change of -6 and
    declining. *)
Lemma classification_by_percent_change_witness :
  (percent_change 100 108 = 8%float /\
   listed sample_key (improving_metrics (buildComparisonData (sample_pair 100 108))) = true /\
   listed sample_key (declining_metrics (buildComparisonData (sample_pair 100 108))) = false) /\
  (percent_change 100 104 = 4%float /\
   listed sample_key (improving_metrics (buildComparisonData (sample_pair 100 104))) = false /\
   listed sample_key (declining_metrics (buildComparisonData (sample_pair 100 104))) = false) /\
  (percent_change 100 94 = (-6)%float /\
   listed sample_key (improving_metrics (buildComparisonData (sample_pair 100 94))) = false /\
   listed sample_key (declining_metrics (buildComparisonData (sample_pair 100 94))) = true).
Proof.
  split; [| split].
  - destruct (classification_by_percent_change (sample_pair 100 108) sample_key
                (sample_series 100 108) _ _ (sample_pair_In 100 108)
                (le_n 2) eq_refl eq_refl) as (-> & -> & _).
    repeat split.
  - destruct (classification_by_percent_change (sample_pair 100 104) sample_key
                (sample_series 100 104) _ _ (sample_pair_In 100 104)
                (le_n 2) eq_refl eq_refl) as (-> & -> & _).
    repeat split.
  - destruct (classification_by_percent_change (sample_pair 100 94) sample_key
                (sample_series 100 94) _ _ (sample_pair_In 100 94)
                (le_n 2) eq_refl eq_refl) as (-> & -> & _).
    repeat split.
Defined.

(** The loop of lines 340-349 has no test on the first value: however
    small [|first|] is, a metric with two or more points stays out of
    both lists exactly when the computed change is neither above 5 nor
    below -5. *)
Lemma small_first_value_still_classified (eps : float) analyses key values p0 pn :
  In (key, values) (metric_trends (buildComparisonData analyses)) ->
  (2 <= length values)%nat ->
  nth_error values 0 = Some p0 ->
  nth_error values (length values - 1) = Some pn ->
  PrimFloat.ltb (abs (value p0)) eps = true ->
  (listed key (improving_metrics (buildComparisonData analyses)) = false /\
   listed key (declining_metrics (buildComparisonData analyses)) = false) <->
  (PrimFloat.ltb 5 (percent_change (value p0) (value pn)) = false /\
   PrimFloat.ltb (percent_change (value p0) (value pn)) (-5) = false).
Proof.
  intros Hin Hlen H0 Hn _.
  destruct (listed_by_ends analyses key values p0 pn Hin Hlen H0 Hn) as [-> ->].
  reflexivity.
Qed.

(** With a first value of 0: a last value of 1 gives a change of
    [+Infinity] and the metric is not kept out of the lists; a last
    value of 0 gives [NaN] and the metric is in neither list. *)
Lemma small_first_value_still_classified_witness :
  (percent_change 0 1 = infinity /\
   ~ (listed sample_key (improving_metrics (buildComparisonData (sample_pair 0 1))) = false /\
      listed sample_key (declining_metrics (buildComparisonData (sample_pair 0 1))) = false)) /\
  (percent_change 0 0 = nan /\
   listed sample_key (improving_metrics (buildComparisonData (sample_pair 0 0))) = false /\
   listed sample_key (declining_metrics (buildComparisonData (sample_pair 0 0))) = false).
Proof.
  split; (split; [reflexivity |]).
  - intros H.
    apply (small_first_value_still_classified 1 (sample_pair 0 1) sample_key
             (sample_series 0 1) _ _ (sample_pair_In 0 1) (le_n 2) eq_refl eq_refl
             eq_refl) in H.
    destruct H as [H _]. vm_compute in H. discriminate.
  - apply (small_first_value_still_classified 1 (sample_pair 0 0) sample_key
             (sample_series 0 0) _ _ (sample_pair_In 0 0) (le_n 2) eq_refl eq_refl
             eq_refl).
    split; reflexivity.
Defined.

(** C6 at the failing input. Two analyses of a company hold
    [liquidity_ratios.current_ratio] 0 and then 1. The series has two
    points and a first value of 0, below every positive threshold, so C6
    keeps the metric out of both lists. The loop of lines 340-349
    divides by [|0|], gets a change of [+Infinity], and lists the metric
    as improving with that change. *)
Lemma near_zero_first_value_listed :
  metric_trends (buildComparisonData (sample_pair 0 1)) =
    [(sample_key, sample_series 0 1)] /\
  percent_change 0 1 = infinity /\
  improving_metrics (buildComparisonData (sample_pair 0 1)) =
    [ {| metric := sample_key; change := infinity |} ] /\
  declining_metrics (buildComparisonData (sample_pair 0 1)) = [] /\
  listed sample_key (improving_metrics (buildComparisonData (sample_pair 0 1))) = true.
Proof.
  split; [apply sample_pair_trends |].
  repeat split.
Qed.

(** C6 fails on the loop of lines 340-349 for every threshold: the
    series 0, 1 has a first value below any positive [eps], the division
    by [|0|] gives [+Infinity], and the metric is listed as improving. *)
Lemma no_threshold_near_zero :
  ~ (exists eps : float,
        PrimFloat.ltb 0 eps = true /\
        forall analyses key values p0 pn,
          In (key, values) (metric_trends (buildComparisonData analyses)) ->
          (2 <= length values)%nat ->
          nth_error values 0 = Some p0 ->
          nth_error values (length values - 1) = Some pn ->
          PrimFloat.ltb (abs (value p0)) eps = true ->
          listed key (improving_metrics (buildComparisonData analyses)) = false /\
          listed key (declining_metrics (buildComparisonData analyses)) = false).
Proof.
  intros (eps & Heps & H).
  destruct (H (sample_pair 0 1) sample_key (sample_series 0 1) _ _
              (sample_pair_In 0 1) (le_n 2) eq_refl eq_refl Heps) as [Himp _].
  vm_compute in Himp. discriminate.
Qed.

(** *** The later copy of the loop *)

Lemma guarded_listed_snoc key l c :
  GuardedComparison.listed key (l ++ [c]) =
  GuardedComparison.listed key l || (GuardedComparison.metric c =? key)%string.
Proof.
  unfold GuardedComparison.listed. rewrite existsb_app. cbn.
  now rewrite orb_false_r.
Qed.

Lemma guarded_classify_other key acc entry :
  fst entry <> key ->
  GuardedComparison.listed key (fst (GuardedComparison.classify acc entry)) =
    GuardedComparison.listed key (fst acc) /\
  GuardedComparison.listed key (snd (GuardedComparison.classify acc entry)) =
    GuardedComparison.listed key (snd acc).
Proof.
  intros Hne. apply String.eqb_neq in Hne. unfold GuardedComparison.classify.
  destruct (GuardedComparison.ends (snd entry)) as [[p q]|]; [| now split].
  destruct (GuardedComparison.near_zero (GuardedComparison.value p)); [now split |].
  cbn [fst snd].
  split.
  - destruct (PrimFloat.ltb 5 _); [| reflexivity].
    rewrite guarded_listed_snoc. cbn [GuardedComparison.metric].
    now rewrite Hne, orb_false_r.
  - destruct (PrimFloat.ltb _ (-5)); [| reflexivity].
    rewrite guarded_listed_snoc. cbn [GuardedComparison.metric].
    now rewrite Hne, orb_false_r.
Qed.

(** The later copy does what C6 says, with the threshold 0.0001: a
    metric whose series of two or more points starts closer to zero than
    the threshold is in neither list, whatever its last value. *)
Lemma guarded_copy_skips_near_zero (t : GuardedComparison.MetricTrends) key :
  (forall values p q,
      In (key, values) t ->
      GuardedComparison.ends values = Some (p, q) ->
      GuardedComparison.near_zero (GuardedComparison.value p) = true) ->
  GuardedComparison.listed key (fst (GuardedComparison.classify_all t)) = false /\
  GuardedComparison.listed key (snd (GuardedComparison.classify_all t)) = false.
Proof.
  unfold GuardedComparison.classify_all.
  assert (Hgen : forall acc,
    (forall values p q,
        In (key, values) t ->
        GuardedComparison.ends values = Some (p, q) ->
        GuardedComparison.near_zero (GuardedComparison.value p) = true) ->
    GuardedComparison.listed key (fst (fold_left GuardedComparison.classify t acc)) =
      GuardedComparison.listed key (fst acc) /\
    GuardedComparison.listed key (snd (fold_left GuardedComparison.classify t acc)) =
      GuardedComparison.listed key (snd acc)).
  { induction t as [|[k values] t IH]; intros acc H; cbn [fold_left]; [now split |].
    destruct (IH (GuardedComparison.classify acc (k, values))) as [-> ->].
    { intros v p q Hin. apply H. now right. }
    destruct (String.eqb_spec k key) as [-> | Hne].
    - unfold GuardedComparison.classify. cbn [fst snd].
      destruct (GuardedComparison.ends values) as [[p q]|] eqn:He; [| now split].
      rewrite (H values p q (or_introl eq_refl) He). now split.
    - now apply guarded_classify_other. }
  intros H. destruct (Hgen ([], []) H) as [-> ->]. now split.
Qed.

(** The series 0, 1, which the loop of lines 340-349 lists as improving,
    is skipped by the later copy; a series that starts at 100 is
    classified as before. *)
Lemma guarded_copy_on_samples :
  GuardedComparison.classify_all
    [(sample_key, GuardedComparison.sample_series 0 1)] = ([], []) /\
  GuardedComparison.listed sample_key
    (fst (GuardedComparison.classify_all
            [(sample_key, GuardedComparison.sample_series 100 108)])) = true /\
  GuardedComparison.listed sample_key
    (snd (GuardedComparison.classify_all
            [(sample_key, GuardedComparison.sample_series 100 94)])) = true.
Proof. repeat split. Qed.

End ComparisonFacts.

(** ** The guards of middleware/rbac.js *)

Section GuardFacts.
Import Rbac RbacGuards.

Lemma or_str_body (a b : option string) :
  truthy_str a = false -> or_str a b = b.
Proof. intros H. unfold or_str. now rewrite H. Qed.

(** The three company guards take the company id from the route
    parameter when there is one; the id of the body is read only when
    the parameter is absent or empty. *)
Theorem params_companyId_first companies (u : option User) (p : string)
  (b : option string) :
  p <> "" ->
  hasCompanyAccess_mw
    {| user := u; params_companyId := Some p; body_companyId := b |} =
  hasCompanyAccess_mw
    {| user := u; params_companyId := Some p; body_companyId := None |} /\
  isCompanyAdmin companies
    {| user := u; params_companyId := Some p; body_companyId := b |} =
  isCompanyAdmin companies
    {| user := u; params_companyId := Some p; body_companyId := None |} /\
  caHasCompanyAccess companies
    {| user := u; params_companyId := Some p; body_companyId := b |} =
  caHasCompanyAccess companies
    {| user := u; params_companyId := Some p; body_companyId := None |}.
Proof.
  intros Hp.
  unfold hasCompanyAccess_mw, isCompanyAdmin, caHasCompanyAccess.
  cbn [user params_companyId body_companyId].
  rewrite !(or_str_params p _ Hp). auto.
Qed.

Lemma params_companyId_first_witness :
  isCompanyAdmin [O1]
    {| user := Some U3; params_companyId := Some "O1"; body_companyId := Some "O2" |} =
  Json 403 "Access denied. Company admin privileges required.".
Proof.
  destruct (params_companyId_first [O1] (Some U3) "O1" (Some "O2")) as (_ & -> & _).
  - discriminate.
  - reflexivity.
Defined.

(** Without a usable route parameter the guards fall back on the body,
    and without any company id they answer 400 whoever asks. *)
Theorem companyId_from_body_or_400 companies (u : option User)
  (p b : option string) :
  truthy_str p = false ->
  (truthy_str b = false ->
   hasCompanyAccess_mw {| user := u; params_companyId := p; body_companyId := b |} =
     Json 400 "Company ID is required." /\
   isCompanyAdmin companies {| user := u; params_companyId := p; body_companyId := b |} =
     Json 400 "Company ID is required." /\
   caHasCompanyAccess companies {| user := u; params_companyId := p; body_companyId := b |} =
     Json 400 "Company ID is required.") /\
  (truthy_str b = true ->
   hasCompanyAccess_mw {| user := u; params_companyId := p; body_companyId := b |} =
     hasCompanyAccess_mw {| user := u; params_companyId := b; body_companyId := None |} /\
   isCompanyAdmin companies {| user := u; params_companyId := p; body_companyId := b |} =
     isCompanyAdmin companies {| user := u; params_companyId := b; body_companyId := None |} /\
   caHasCompanyAccess companies {| user := u; params_companyId := p; body_companyId := b |} =
     caHasCompanyAccess companies {| user := u; params_companyId := b; body_companyId := None |}).
Proof.
  intros Hp.
  unfold hasCompanyAccess_mw, isCompanyAdmin, caHasCompanyAccess.
  cbn [user params_companyId body_companyId].
  rewrite !(or_str_body p b Hp).
  split; intros Hb.
  - destruct b as [s|]; [| auto]. cbn in Hb.
    destruct (s =? ""); [auto | discriminate].
  - unfold or_str. rewrite Hb. auto.
Qed.

Lemma companyId_from_body_or_400_witness :
  hasCompanyAccess_mw
    {| user := None; params_companyId := Some ""; body_companyId := None |} =
  Json 400 "Company ID is required.".
Proof.
  destruct (companyId_from_body_or_400 [] None (Some "") None eq_refl) as [H _].
  destruct (H eq_refl) as (-> & _). reflexivity.
Defined.

Lemma hasCompanyAccess_mw_Next_witness :
  hasCompanyAccess_mw (request_for U1 "O1") = Next <->
  hasCompanyAccess U1 "O1" = JsBool true.
Proof. apply (hasCompanyAccess_mw_Next U1 "O1"). discriminate. Defined.

Lemma find_some_iff {A} (p : A -> bool) (l : list A) :
  (exists x, find p l = Some x) <-> existsb p l = true.
Proof.
  induction l as [|a l IH]; cbn.
  - split; [intros [x H] |]; discriminate.
  - destruct (p a); [split; eauto | exact IH].
Qed.

(** [caHasCompanyAccess] lets a request through exactly when the user is
    a CA and the company document lists them among its invitations. The
    user's own [invitedCompanies] is not consulted, and a super admin is
    refused like everybody else. *)
Theorem caHasCompanyAccess_Next companies (u : User) (companyId : string) :
  companyId <> "" ->
  (caHasCompanyAccess companies (request_for u companyId) = Next <->
   role u = CA /\
   exists c, findById companies companyId = Some c /\ In (_id u) (invitedCAs c)) /\
  (role u = SUPER_ADMIN ->
   caHasCompanyAccess companies (request_for u companyId) =
     Json 403 "Access denied. CA privileges required.").
Proof.
  intros Hne. unfold caHasCompanyAccess, request_for.
  cbn [user params_companyId body_companyId].
  rewrite (or_str_params _ _ Hne).
  destruct (String.eqb_spec companyId ""); [contradiction |].
  split.
  - destruct (role u) eqn:Hr; cbn [Role_eqb negb];
      try (split; [discriminate | intros [H _]; discriminate]).
    destruct (findById companies companyId) as [c|].
    + destruct (some_eq (invitedCAs c) (_id u)) eqn:Hs.
      * split; [| reflexivity]. intros _. split; [reflexivity |].
        exists c. split; [reflexivity | now apply some_eq_In].
      * split; [discriminate |]. intros (_ & c' & Hc' & Hin).
        inversion Hc'; subst c'. apply some_eq_In in Hin. congruence.
    + split; [discriminate |]. intros (_ & c' & Hc' & _). discriminate.
  - intros ->. reflexivity.
Qed.

Lemma caHasCompanyAccess_Next_witness :
  caHasCompanyAccess [O1] (request_for U1 "O1") <> Next.
Proof.
  destruct (caHasCompanyAccess_Next [O1] U1 "O1") as [[H _] _].
  - discriminate.
  - intros Hn. destruct (H Hn) as [Hr _]. discriminate.
Defined.

(** [isCompanyAdmin] looks the company up only after the role tests: a
    super admin, and a company admin whose [company] is the requested
    id, pass even when no such company exists; everybody else gets
    404. *)
Theorem isCompanyAdmin_missing_company companies (u : User) (companyId : string) :
  companyId <> "" ->
  findById companies companyId = None ->
  isCompanyAdmin companies (request_for u companyId) =
    if Role_eqb (role u) SUPER_ADMIN || role_fast_path u companyId then Next
    else Json 404 "Company not found.".
Proof.
  intros Hne Hfind. unfold isCompanyAdmin, request_for.
  cbn [user params_companyId body_companyId].
  rewrite (or_str_params _ _ Hne).
  destruct (String.eqb_spec companyId ""); [contradiction |].
  rewrite Hfind.
  destruct (Role_eqb (role u) SUPER_ADMIN), (role_fast_path u companyId); reflexivity.
Qed.

Lemma isCompanyAdmin_missing_company_witness :
  isCompanyAdmin [] (request_for U2 "O1") = Next /\
  isCompanyAdmin [] (request_for U1 "O1") = Json 404 "Company not found.".
Proof.
  split.
  - rewrite (isCompanyAdmin_missing_company [] U2 "O1"); [reflexivity | discriminate | reflexivity].
  - rewrite (isCompanyAdmin_missing_company [] U1 "O1"); [reflexivity | discriminate | reflexivity].
Defined.

Lemma Role_eqb_eq (a b : Role) : Role_eqb a b = true <-> a = b.
Proof. destruct a, b; cbn; split; congruence. Qed.

(** [authorize] lets through exactly the authenticated users whose role
    is listed, answers 401 without a user and 403 otherwise.
    [isSuperAdmin] and [isCA] pass the same requests as [authorize] with
    their one role, but answer 403 where [authorize] answers 401. *)
Theorem authorize_by_role (roles : list Role) (req : Request) :
  (authorize roles req = Next <->
   exists u, user req = Some u /\ In (role u) roles) /\
  (user req = None ->
   authorize roles req = Json 401 "Authentication required." /\
   isSuperAdmin req = Json 403 "Access denied. Super admin privileges required." /\
   isCA req = Json 403 "Access denied. CA privileges required.") /\
  (isSuperAdmin req = Next <-> authorize [SUPER_ADMIN] req = Next) /\
  (isCA req = Next <-> authorize [CA] req = Next).
Proof.
  unfold authorize, isSuperAdmin, isCA.
  destruct (user req) as [u|].
  - repeat split; try discriminate.
    + intros H. exists u. split; [reflexivity |].
      destruct (existsb (Role_eqb (role u)) roles) eqn:He; [| discriminate].
      apply existsb_exists in He. destruct He as (r & Hr & Heq).
      apply Role_eqb_eq in Heq. congruence.
    + intros (u' & Hu' & Hin). inversion Hu'; subst u'.
      assert (He : existsb (Role_eqb (role u)) roles = true).
      { apply existsb_exists. exists (role u). split; [assumption |].
        now apply Role_eqb_eq. }
      now rewrite He.
    + cbn. now destruct (Role_eqb (role u) SUPER_ADMIN).
    + cbn. now destruct (Role_eqb (role u) SUPER_ADMIN).
    + cbn. now destruct (Role_eqb (role u) CA).
    + cbn. now destruct (Role_eqb (role u) CA).
  - repeat split; try discriminate; auto.
    intros (u & Hu & _). discriminate.
Qed.

End GuardFacts.

(** ** Invitations and company admins *)

Section CompanyFacts.
Import Rbac CompanyController.
Local Open Scope list_scope.

(** *** The methods of the company model *)

(** The virtual [allAdmins] lists exactly the users that
    [isCompanyAdmin] accepts. *)
Theorem allAdmins_isCompanyAdmin (c : CompanyModel.t) (userId : ObjectId) :
  Company_isCompanyAdmin (CompanyModel.view c) userId = true <->
  In userId (CompanyModel.allAdmins c).
Proof.
  unfold Company_isCompanyAdmin, CompanyModel.allAdmins, CompanyModel.view.
  cbn [representative companyAdmins In].
  rewrite orb_true_iff, String.eqb_eq, some_eq_In. tauto.
Qed.

Lemma alreadyInvited_In (c : CompanyModel.t) (caId : ObjectId) :
  CompanyModel.alreadyInvited c caId = true <->
  In caId (map CompanyModel.ca (CompanyModel.invitedCAs c)).
Proof.
  unfold CompanyModel.alreadyInvited. rewrite existsb_exists, in_map_iff. split.
  - intros (i & Hi & Heq). apply String.eqb_eq in Heq. eauto.
  - intros (i & Heq & Hi). exists i. split; [assumption |].
    now apply String.eqb_eq.
Qed.

Lemma alreadyInvited_inviteCA now c caId by_ x :
  CompanyModel.alreadyInvited (CompanyModel.inviteCA now c caId by_) x =
  CompanyModel.alreadyInvited c x || (caId =? x).
Proof.
  unfold CompanyModel.inviteCA.
  destruct (CompanyModel.alreadyInvited c caId) eqn:Ha.
  - destruct (String.eqb_spec caId x) as [<- | Hne].
    + rewrite Ha. reflexivity.
    + now rewrite orb_false_r.
  - unfold CompanyModel.alreadyInvited. cbn [CompanyModel.invitedCAs].
    rewrite existsb_app. cbn. now rewrite orb_false_r.
Qed.

(** [inviteCA] on the model: afterwards the CA is invited; inviting
    again changes nothing, whoever invites and whenever; the records
    that were there stay as they were, in their order; and a list with
    one record per CA keeps that shape. *)
Theorem inviteCA_adds_once now now' (c : CompanyModel.t) (caId by_ by' : ObjectId) :
  CompanyModel.alreadyInvited (CompanyModel.inviteCA now c caId by_) caId = true /\
  CompanyModel.inviteCA now' (CompanyModel.inviteCA now c caId by_) caId by' =
    CompanyModel.inviteCA now c caId by_ /\
  (exists added,
      CompanyModel.invitedCAs (CompanyModel.inviteCA now c caId by_) =
        CompanyModel.invitedCAs c ++ added /\ (length added <= 1)%nat) /\
  (NoDup (map CompanyModel.ca (CompanyModel.invitedCAs c)) ->
   NoDup (map CompanyModel.ca
            (CompanyModel.invitedCAs (CompanyModel.inviteCA now c caId by_)))).
Proof.
  assert (Hin : CompanyModel.alreadyInvited
                  (CompanyModel.inviteCA now c caId by_) caId = true).
  { rewrite alreadyInvited_inviteCA, String.eqb_refl. apply orb_true_r. }
  split; [exact Hin |]. split.
  { unfold CompanyModel.inviteCA at 1. now rewrite Hin. }
  unfold CompanyModel.inviteCA.
  destruct (CompanyModel.alreadyInvited c caId) eqn:Ha.
  - split; [exists []; rewrite app_nil_r; auto | auto].
  - cbn [CompanyModel.invitedCAs]. split.
    + eexists. split; [reflexivity | cbn; lia].
    + intros Hnd. rewrite map_app. cbn [map CompanyModel.ca].
      apply NoDup_app; [assumption | repeat constructor; intros [] |].
      intros x Hx [<- | []].
      apply alreadyInvited_In in Hx. congruence.
Qed.

Lemma filter_all {A} (p : A -> bool) (l : list A) :
  forallb p l = true -> filter p l = l.
Proof.
  induction l as [|a l IH]; cbn; [reflexivity |].
  destruct (p a); cbn; [intros H; now rewrite IH | discriminate].
Qed.

Lemma not_invited_forallb (c : CompanyModel.t) (caId : ObjectId) :
  CompanyModel.alreadyInvited c caId = false ->
  forallb (fun invite => negb (CompanyModel.ca invite =? caId))
          (CompanyModel.invitedCAs c) = true.
Proof.
  unfold CompanyModel.alreadyInvited.
  induction (CompanyModel.invitedCAs c) as [|i l IH]; cbn; [reflexivity |].
  destruct (CompanyModel.ca i =? caId); cbn; [discriminate | assumption].
Qed.

(** [removeCA] on the model: afterwards the CA is not invited, the
    invitations of the other CAs stay, and a removal undoes an
    invitation that was new. *)
Theorem removeCA_undoes_inviteCA now (c : CompanyModel.t) (caId by_ : ObjectId) :
  CompanyModel.alreadyInvited (CompanyModel.removeCA c caId) caId = false /\
  (forall x, x <> caId ->
     CompanyModel.alreadyInvited (CompanyModel.removeCA c caId) x =
     CompanyModel.alreadyInvited c x) /\
  (CompanyModel.alreadyInvited c caId = false ->
   CompanyModel.removeCA (CompanyModel.inviteCA now c caId by_) caId = c).
Proof.
  split; [| split].
  - unfold CompanyModel.alreadyInvited, CompanyModel.removeCA.
    cbn [CompanyModel.invitedCAs].
    induction (CompanyModel.invitedCAs c) as [|i l IH]; cbn; [reflexivity |].
    destruct (CompanyModel.ca i =? caId) eqn:He; cbn; [assumption |].
    now rewrite He.
  - intros x Hx. unfold CompanyModel.alreadyInvited, CompanyModel.removeCA.
    cbn [CompanyModel.invitedCAs].
    induction (CompanyModel.invitedCAs c) as [|i l IH]; cbn; [reflexivity |].
    destruct (String.eqb_spec (CompanyModel.ca i) caId) as [Heq | Hne]; cbn.
    + rewrite IH. destruct (String.eqb_spec (CompanyModel.ca i) x); [congruence | reflexivity].
    + now rewrite IH.
  - intros Ha. unfold CompanyModel.inviteCA. rewrite Ha.
    unfold CompanyModel.removeCA. cbn.
    rewrite filter_app. cbn. rewrite String.eqb_refl. cbn.
    rewrite app_nil_r, (filter_all _ _ (not_invited_forallb c caId Ha)).
    now destruct c.
Qed.

Lemma removeCA_undoes_inviteCA_witness :
  CompanyModel.removeCA (CompanyModel.inviteCA 7 company_O1 "CA7" "U1") "CA7" =
  company_O1.
Proof.
  apply (removeCA_undoes_inviteCA 7 company_O1 "CA7" "U1"). reflexivity.
Defined.

(** *** Finding and saving documents *)

Lemma Company_findById_id l id c :
  Company_findById l id = Some c -> CompanyModel._id c = id.
Proof.
  unfold Company_findById. intros H. apply find_some in H.
  now apply String.eqb_eq.
Qed.

Lemma User_findById_id l id u : User_findById l id = Some u -> _id u = id.
Proof.
  unfold User_findById. intros H. apply find_some in H.
  now apply String.eqb_eq.
Qed.

Lemma Company_findById_save l c c' :
  Company_findById l (CompanyModel._id c') = Some c ->
  Company_findById (save_company c' l) (CompanyModel._id c') = Some c'.
Proof.
  unfold Company_findById.
  induction l as [|x l IH]; cbn; [discriminate |].
  destruct (CompanyModel._id x =? CompanyModel._id c') eqn:He.
  - intros _. cbn. now rewrite String.eqb_refl.
  - intros H. cbn. rewrite He. now apply IH.
Qed.

Lemma Company_findById_save_other l c' id :
  id <> CompanyModel._id c' ->
  Company_findById (save_company c' l) id = Company_findById l id.
Proof.
  unfold Company_findById. intros Hne.
  induction l as [|x l IH]; cbn; [reflexivity |].
  destruct (String.eqb_spec (CompanyModel._id x) (CompanyModel._id c')) as [Heq | Hd]; cbn.
  - destruct (String.eqb_spec (CompanyModel._id c') id); [congruence |].
    destruct (String.eqb_spec (CompanyModel._id x) id); [congruence | reflexivity].
  - now rewrite IH.
Qed.

Lemma User_findById_save l u u' :
  User_findById l (_id u') = Some u ->
  User_findById (save_user u' l) (_id u') = Some u'.
Proof.
  unfold User_findById.
  induction l as [|x l IH]; cbn; [discriminate |].
  destruct (_id x =? _id u') eqn:He.
  - intros _. cbn. now rewrite String.eqb_refl.
  - intros H. cbn. rewrite He. now apply IH.
Qed.

Lemma User_findById_save_other l u' id :
  id <> _id u' ->
  User_findById (save_user u' l) id = User_findById l id.
Proof.
  unfold User_findById. intros Hne.
  induction l as [|x l IH]; cbn; [reflexivity |].
  destruct (String.eqb_spec (_id x) (_id u')) as [Heq | Hd]; cbn.
  - destruct (String.eqb_spec (_id u') id); [congruence |].
    destruct (String.eqb_spec (_id x) id); [congruence | reflexivity].
  - now rewrite IH.
Qed.

(** The middleware finds in the views what the controller finds in the
    collection. *)
Lemma findById_views l id :
  findById (map CompanyModel.view l) id =
  option_map CompanyModel.view (Company_findById l id).
Proof.
  unfold findById, Company_findById.
  induction l as [|x l IH]; cbn; [reflexivity |].
  destruct (CompanyModel._id x =? id); [reflexivity | assumption].
Qed.

Lemma includes_In l id : includes l id = true <-> In id l.
Proof. apply some_eq_In. Qed.

Lemma caHasCompanyAccess_invited l (u : User) c companyId :
  companyId <> "" ->
  role u = CA ->
  Company_findById l companyId = Some c ->
  CompanyModel.alreadyInvited c (_id u) = true ->
  caHasCompanyAccess (map CompanyModel.view l) (request_for u companyId) = Next.
Proof.
  intros Hne Hr Hc Hin.
  apply (caHasCompanyAccess_Next _ u companyId Hne). split; [assumption |].
  exists (CompanyModel.view c). rewrite findById_views, Hc. split; [reflexivity |].
  now apply alreadyInvited_In.
Qed.


(** *** The invitation handlers *)

(** A successful [inviteCA]: for a company and a CA that exist, when
    the CA is not invited yet and no call is rejected, the answer is
    200 and both sides of the invitation are stored: the CA stored
    afterwards has access by [hasCompanyAccess] and passes
    [caHasCompanyAccess]. *)
Theorem inviteCA_grants_access f now (req_user : User) companyId caId db company ca :
  no_faults f ->
  companyId <> "" ->
  Company_findById (companies db) companyId = Some company ->
  User_findById (users db) caId = Some ca ->
  role ca = CA ->
  CompanyModel.alreadyInvited company caId = false ->
  exists db' ca',
    inviteCA f now req_user companyId caId db =
      (Sent 200 "CA invited successfully", db') /\
    User_findById (users db') caId = Some ca' /\
    hasCompanyAccess ca' companyId = JsBool true /\
    caHasCompanyAccess (company_views db') (request_for ca' companyId) = Next.
Proof.
  intros Hf Hne Hc Hu Hr Ha.
  pose proof (Company_findById_id _ _ _ Hc) as Hcid.
  pose proof (User_findById_id _ _ _ Hu) as Huid.
  unfold inviteCA, attempt. rewrite !Hf, Hc, Hu, Hr, Ha. cbn [Role_eqb negb].
  set (company' := CompanyModel.inviteCA now company caId (_id req_user)).
  assert (Hcid' : CompanyModel._id company' = companyId).
  { unfold company', CompanyModel.inviteCA. rewrite Ha. exact Hcid. }
  assert (Hc' : Company_findById (save_company company' (companies db)) companyId
                = Some company').
  { rewrite <- Hcid'. apply (Company_findById_save _ company). now rewrite Hcid'. }
  assert (Ha' : CompanyModel.alreadyInvited company' caId = true).
  { unfold company'. rewrite alreadyInvited_inviteCA, String.eqb_refl. apply orb_true_r. }
  destruct (includes (invitedCompanies ca) companyId) eqn:Hinc.
  - eexists _, ca. split; [reflexivity |]. cbn [users companies].
    split; [exact Hu |]. split.
    + unfold hasCompanyAccess. rewrite Hr. f_equal. exact Hinc.
    + unfold company_views. cbn [companies].
      apply (caHasCompanyAccess_invited _ ca company'); auto. now rewrite Huid.
  - set (ca' := with_invitedCompanies (invitedCompanies ca ++ [companyId]) ca).
    eexists _, ca'. split; [reflexivity |]. cbn [users companies].
    split; [| split].
    + rewrite <- Huid. apply (User_findById_save _ ca ca'). cbn. now rewrite Huid.
    + unfold hasCompanyAccess, ca'. cbn. rewrite Hr. f_equal.
      apply some_eq_In. apply in_or_app. right. now left.
    + unfold company_views. cbn [companies].
      apply (caHasCompanyAccess_invited _ ca' company'); auto. cbn. now rewrite Huid.
Qed.

Lemma ok_faults_none : no_faults ok_faults.
Proof. intros c. reflexivity. Qed.

Lemma inviteCA_grants_access_witness :
  exists db' ca',
    inviteCA ok_faults 7 U1 "O1" "CA7" db0 = (Sent 200 "CA invited successfully", db') /\
    User_findById (users db') "CA7" = Some ca' /\
    hasCompanyAccess ca' "O1" = JsBool true /\
    caHasCompanyAccess (company_views db') (request_for ca' "O1") = Next.
Proof.
  apply (inviteCA_grants_access ok_faults 7 U1 "O1" "CA7" db0 company_O1 ca7);
    first [exact ok_faults_none | discriminate | reflexivity].
Defined.




(** [inviteCA] is not atomic: when the save of the user is rejected
    after the company was saved, the company lists the CA while the CA
    does not list the company, so [caHasCompanyAccess] lets the CA
    through and [hasCompanyAccess] does not. *)
Theorem inviteCA_half_done f e now (req_user : User) companyId caId db company ca :
  f FindCompany = None -> f FindUser = None -> f SaveCompany = None ->
  f SaveUser = Some e ->
  companyId <> "" ->
  Company_findById (companies db) companyId = Some company ->
  User_findById (users db) caId = Some ca ->
  role ca = CA ->
  CompanyModel.alreadyInvited company caId = false ->
  includes (invitedCompanies ca) companyId = false ->
  fst (inviteCA f now req_user companyId caId db) = NextError e /\
  users (snd (inviteCA f now req_user companyId caId db)) = users db /\
  caHasCompanyAccess (company_views (snd (inviteCA f now req_user companyId caId db)))
    (request_for ca companyId) = Next /\
  hasCompanyAccess ca companyId = JsBool false.
Proof.
  intros H1 H2 H3 H4 Hne Hc Hu Hr Ha Hinc.
  pose proof (Company_findById_id _ _ _ Hc) as Hcid.
  pose proof (User_findById_id _ _ _ Hu) as Huid.
  unfold inviteCA, attempt. rewrite H1, H2, H3, H4, Hc, Hu, Hr, Ha, Hinc.
  cbn [Role_eqb negb fst snd users].
  split; [reflexivity |]. split; [reflexivity |]. split.
  - unfold company_views. cbn [companies].
    set (company' := CompanyModel.inviteCA now company caId (_id req_user)).
    assert (Hcid' : CompanyModel._id company' = companyId).
    { unfold company', CompanyModel.inviteCA. rewrite Ha. exact Hcid. }
    apply (caHasCompanyAccess_invited _ ca company'); auto.
    + rewrite <- Hcid'. apply (Company_findById_save _ company). now rewrite Hcid'.
    + unfold company'. rewrite Huid, alreadyInvited_inviteCA, String.eqb_refl.
      apply orb_true_r.
  - unfold hasCompanyAccess. rewrite Hr. f_equal. exact Hinc.
Qed.

Lemma inviteCA_half_done_witness :
  fst (inviteCA user_save_fails 7 U1 "O1" "CA7" db0) = NextError "write failed" /\
  caHasCompanyAccess (company_views (snd (inviteCA user_save_fails 7 U1 "O1" "CA7" db0)))
    (request_for ca7 "O1") = Next /\
  hasCompanyAccess ca7 "O1" = JsBool false.
Proof.
  destruct (inviteCA_half_done user_save_fails "write failed" 7 U1 "O1" "CA7" db0
              company_O1 ca7 eq_refl eq_refl eq_refl eq_refl)
    as (H1 & _ & H3 & H4); try reflexivity; [discriminate |].
  auto.
Defined.




(** *** The company admin handlers *)

(** A successful [addCompanyAdmin] stores both sides: the user stored
    afterwards belongs to the company, the company lists the user, and
    the two tests of the [isCompanyAdmin] middleware agree on them. *)
Theorem addCompanyAdmin_both_sides f companyId userId db company u :
  no_faults f ->
  companyId <> "" ->
  Company_findById (companies db) companyId = Some company ->
  User_findById (users db) userId = Some u ->
  role u = COMPANY_ADMIN ->
  Rbac.company u = None \/ Rbac.company u = Some companyId ->
  ~ In userId (CompanyModel.companyAdmins company) ->
  exists db' company' u',
    addCompanyAdmin f companyId userId db =
      (Sent 200 "Company admin added successfully", db') /\
    Company_findById (companies db') companyId = Some company' /\
    User_findById (users db') userId = Some u' /\
    role_fast_path u' companyId = true /\
    Company_isCompanyAdmin (CompanyModel.view company') (_id u') = true /\
    isCompanyAdmin (company_views db') (request_for u' companyId) = Next.
Proof.
  intros Hf Hne Hc Hu Hr Hco Hnot.
  pose proof (Company_findById_id _ _ _ Hc) as Hcid.
  pose proof (User_findById_id _ _ _ Hu) as Huid.
  unfold addCompanyAdmin, attempt. rewrite !Hf, Hc, Hu, Hr. cbn [Role_eqb negb].
  assert (Hother : match Rbac.company u with
                   | Some c => negb (c =? companyId)
                   | None => false
                   end = false).
  { destruct Hco as [-> | ->]; [reflexivity |]. now rewrite String.eqb_refl. }
  rewrite Hother.
  assert (Hinc : includes (CompanyModel.companyAdmins company) userId = false).
  { apply not_true_is_false. intros H. apply includes_In in H. contradiction. }
  rewrite Hinc.
  set (company' := CompanyModel.with_companyAdmins
                     (CompanyModel.companyAdmins company ++ [userId]) company).
  set (u' := with_company (Some companyId) u).
  assert (Hc' : Company_findById (save_company company' (companies db)) companyId
                = Some company').
  { assert (Hcid' : CompanyModel._id company' = companyId) by exact Hcid.
    rewrite <- Hcid'. apply (Company_findById_save _ company). now rewrite Hcid'. }
  assert (Hfast : role_fast_path u' companyId = true).
  { unfold role_fast_path, u'. cbn. now rewrite Hr, String.eqb_refl. }
  assert (Hmem : Company_isCompanyAdmin (CompanyModel.view company') (_id u') = true).
  { apply allAdmins_isCompanyAdmin. right. unfold company', u'. cbn.
    apply in_or_app. right. left. now rewrite Huid. }
  eexists _, company', u'. split; [reflexivity |]. cbn [users companies].
  split; [exact Hc' |]. split; [| split; [exact Hfast | split; [exact Hmem |]]].
  - rewrite <- Huid. apply (User_findById_save _ u u'). cbn. now rewrite Huid.
  - unfold company_views. cbn [companies].
    rewrite (isCompanyAdmin_found _ u' (CompanyModel.view company') companyId Hne).
    + rewrite Hfast. now destruct (Role_eqb (role u') SUPER_ADMIN).
    + now rewrite findById_views, Hc'.
Qed.

Lemma addCompanyAdmin_both_sides_witness :
  exists db' company' u',
    addCompanyAdmin ok_faults "O1" "U9" db0 =
      (Sent 200 "Company admin added successfully", db') /\
    Company_findById (companies db') "O1" = Some company' /\
    User_findById (users db') "U9" = Some u' /\
    role_fast_path u' "O1" = true /\
    Company_isCompanyAdmin (CompanyModel.view company') (_id u') = true /\
    isCompanyAdmin (company_views db') (request_for u' "O1") = Next.
Proof.
  apply (addCompanyAdmin_both_sides ok_faults "O1" "U9" db0 company_O1 admin9);
    first [exact ok_faults_none | discriminate | reflexivity | now left | intros []].
Defined.

Lemma In_filter_neq (l : list ObjectId) (x y : string) :
  In y (filter (fun a => negb (a =? x)) l) <-> In y l /\ y <> x.
Proof.
  rewrite filter_In. split; intros [H1 H2]; split; auto.
  - intros ->. now rewrite String.eqb_refl in H2.
  - destruct (String.eqb_spec y x); [contradiction | reflexivity].
Qed.

(** [removeCompanyAdmin] edits the company document only. Whatever the
    outcome, no user document changes, so a company admin whose
    [company] is this company still passes the [isCompanyAdmin]
    middleware afterwards. When the removal succeeds, the company lists
    as admins the users it listed before except the removed one, and
    the representative remains an admin even when the removed id is
    theirs. *)
Theorem removeCompanyAdmin_company_side_only f companyId userId db :
  users (snd (removeCompanyAdmin f companyId userId db)) = users db /\
  (forall u, role u = COMPANY_ADMIN -> Rbac.company u = Some companyId ->
             companyId <> "" ->
             isCompanyAdmin (company_views (snd (removeCompanyAdmin f companyId userId db)))
               (request_for u companyId) = Next) /\
  (forall company,
      no_faults f ->
      Company_findById (companies db) companyId = Some company ->
      exists company',
        fst (removeCompanyAdmin f companyId userId db) =
          Sent 200 "Company admin removed successfully" /\
        Company_findById (companies (snd (removeCompanyAdmin f companyId userId db)))
          companyId = Some company' /\
        (forall x, In x (CompanyModel.companyAdmins company') <->
                   In x (CompanyModel.companyAdmins company) /\ x <> userId) /\
        Company_isCompanyAdmin (CompanyModel.view company')
          (CompanyModel.representative company) = true).
Proof.
  split; [| split].
  - unfold removeCompanyAdmin, attempt.
    destruct (f FindCompany); [reflexivity |].
    destruct (Company_findById (companies db) companyId); [| reflexivity].
    destruct (f SaveCompany); reflexivity.
  - intros u Hr Hco Hne.
    unfold isCompanyAdmin, request_for. cbn [user params_companyId body_companyId].
    rewrite (or_str_params _ _ Hne).
    destruct (String.eqb_spec companyId ""); [contradiction |].
    unfold role_fast_path. rewrite Hr, Hco, String.eqb_refl. reflexivity.
  - intros company Hf Hc.
    pose proof (Company_findById_id _ _ _ Hc) as Hcid.
    unfold removeCompanyAdmin, attempt. rewrite !Hf, Hc. cbn [fst snd companies].
    set (company' := CompanyModel.with_companyAdmins
                       (filter (fun adminId => negb (adminId =? userId))
                               (CompanyModel.companyAdmins company)) company).
    exists company'. split; [reflexivity |]. split; [| split].
    + assert (Hcid' : CompanyModel._id company' = companyId) by exact Hcid.
      rewrite <- Hcid'. apply (Company_findById_save _ company). now rewrite Hcid'.
    + intros x. unfold company'. cbn. apply In_filter_neq.
    + apply allAdmins_isCompanyAdmin. now left.
Qed.

End CompanyFacts.

(** ** Assigning companies to a CA *)

Section AdminFacts.
Import Rbac AdminController.
Local Open Scope list_scope.




Lemma findCA_first l caId ca :
  CompanyController.User_findById l caId = Some ca ->
  role ca = CA ->
  findCA l caId = Some ca.
Proof.
  unfold CompanyController.User_findById, findCA.
  induction l as [|x l IH]; cbn; [discriminate |].
  destruct (_id x =? caId); cbn.
  - intros H Hr. inversion H; subst x. now rewrite Hr.
  - exact IH.
Qed.

Lemma nonempty_ids (ids : list string) :
  ids <> [] -> exists id rest, ids = id :: rest.
Proof. destruct ids as [|id rest]; [contradiction | eauto]. Qed.



Lemma In_distinct (l : list string) (x : string) : In x (distinct l) <-> In x l.
Proof.
  induction l as [|a l IH]; cbn [distinct In]; [tauto |].
  rewrite filter_In, IH. split.
  - intros [H | [H _]]; auto.
  - intros [H | H]; [now left |].
    destruct (String.eqb_spec x a) as [-> | Hne]; [now left |].
    right. split; [assumption |].
    destruct (String.eqb_spec x a); [contradiction | reflexivity].
Qed.

(** A successful [assignCAToCompanies] writes the user side only: the CA
    stored afterwards has access by [hasCompanyAccess] to every company
    of the request and keeps the companies listed before, while the
    representative, the admins and the invitations of every company stay
    as they were, so [caHasCompanyAccess], which reads the invitations
    of the company, answers as before. *)
Theorem assignCAToCompanies_user_side_only f caId ids db ca :
  no_faults f ->
  CompanyController.User_findById (CompanyController.users db) caId = Some ca ->
  role ca = CA ->
  ids <> [] ->
  length (findCompanies (CompanyController.companies db) ids) = length ids ->
  exists ca',
    CompanyController.User_findById
      (CompanyController.users (snd (assignCAToCompanies f caId (Some ids) db))) caId
      = Some ca' /\
    role ca' = CA /\
    (forall id, In id ids -> hasCompanyAccess ca' id = JsBool true) /\
    (forall id, In id (invitedCompanies ca) -> In id (invitedCompanies ca')) /\
    CompanyController.companies (snd (assignCAToCompanies f caId (Some ids) db)) =
      CompanyController.companies db /\
    (forall u companyId,
        caHasCompanyAccess
          (CompanyController.company_views (snd (assignCAToCompanies f caId (Some ids) db)))
          (request_for u companyId) =
        caHasCompanyAccess (CompanyController.company_views db) (request_for u companyId)).
Proof.
  intros Hf Hu Hr Hne Hlen.
  pose proof (User_findById_id _ _ _ Hu) as Huid.
  destruct (nonempty_ids ids Hne) as (id & rest & ->).
  unfold assignCAToCompanies, attempt.
  rewrite !Hf, (findCA_first _ _ _ Hu Hr), Hlen, Nat.eqb_refl.
  cbn [negb snd CompanyController.users CompanyController.companies].
  set (ca' := CompanyController.with_invitedCompanies
                (union_ids (invitedCompanies ca) (id :: rest)) ca).
  exists ca'. split; [| split; [exact Hr | split; [| split; [| split]]]].
  - rewrite <- Huid. apply (User_findById_save _ ca ca').
    cbn. now rewrite Huid.
  - intros x Hx. unfold hasCompanyAccess, ca'. cbn [role invitedCompanies
      CompanyController.with_invitedCompanies]. rewrite Hr. f_equal.
    apply some_eq_In. unfold union_ids. apply in_or_app. right.
    now apply In_distinct.
  - intros x Hx. unfold ca', union_ids. cbn. apply in_or_app. now left.
  - reflexivity.
  - intros u companyId. reflexivity.
Qed.

Lemma assignCAToCompanies_user_side_only_witness :
  hasCompanyAccess CompanyController.ca7 "O1" = JsBool false /\
  exists ca',
    CompanyController.User_findById
      (CompanyController.users
         (snd (assignCAToCompanies ok_faults "CA7" (Some ["O1"]) CompanyController.db0)))
      "CA7" = Some ca' /\
    hasCompanyAccess ca' "O1" = JsBool true /\
    caHasCompanyAccess
      (CompanyController.company_views
         (snd (assignCAToCompanies ok_faults "CA7" (Some ["O1"]) CompanyController.db0)))
      (request_for ca' "O1") =
    Json 403 "Access denied. You are not invited to this company.".
Proof.
  split; [reflexivity |].
  destruct (assignCAToCompanies_user_side_only ok_faults "CA7" ["O1"]
              CompanyController.db0 CompanyController.ca7)
    as (ca' & Hfind & Hrole & Hacc & _ & _ & Hca); try reflexivity.
  - intros c. reflexivity.
  - discriminate.
  - exists ca'. split; [exact Hfind |]. split; [apply Hacc; now left |].
    rewrite Hca. cbn in Hfind. inversion Hfind; subst ca'. reflexivity.
Defined.

(** A successful [removeCAFromCompanies] takes every company of the
    request off the CA's list, whether or not such a company exists, and
    leaves the other entries of the list, and the representative, the
    admins and the invitations of every company, as they were. *)
Theorem removeCAFromCompanies_user_side f caId ids db ca :
  no_faults f ->
  CompanyController.User_findById (CompanyController.users db) caId = Some ca ->
  role ca = CA ->
  ids <> [] ->
  exists ca',
    fst (removeCAFromCompanies f caId (Some ids) db) =
      CompanyController.Sent 200
        ("CA removed from " ++ show_count ids ++ " company/companies successfully")%string /\
    CompanyController.User_findById
      (CompanyController.users (snd (removeCAFromCompanies f caId (Some ids) db))) caId
      = Some ca' /\
    (forall id, In id ids -> hasCompanyAccess ca' id = JsBool false) /\
    (forall id, ~ In id ids ->
                hasCompanyAccess ca' id = hasCompanyAccess ca id) /\
    CompanyController.companies (snd (removeCAFromCompanies f caId (Some ids) db)) =
      CompanyController.companies db.
Proof.
  intros Hf Hu Hr Hne.
  pose proof (User_findById_id _ _ _ Hu) as Huid.
  destruct (nonempty_ids ids Hne) as (id & rest & ->).
  unfold removeCAFromCompanies, attempt.
  rewrite !Hf, (findCA_first _ _ _ Hu Hr).
  cbn [fst snd CompanyController.users CompanyController.companies].
  set (kept := filter (fun companyId => negb (id_in companyId (id :: rest)))
                      (invitedCompanies ca)).
  set (ca' := CompanyController.with_invitedCompanies kept ca).
  assert (Hkept : forall x, In x kept <-> In x (invitedCompanies ca) /\ ~ In x (id :: rest)).
  { intros x. unfold kept. rewrite filter_In, negb_true_iff.
    rewrite <- (id_in_In x (id :: rest)).
    destruct (id_in x (id :: rest)); intuition congruence. }
  exists ca'. split; [reflexivity |]. split; [| split; [| split]].
  - rewrite <- Huid. apply (User_findById_save _ ca ca').
    cbn. now rewrite Huid.
  - intros x Hx. unfold hasCompanyAccess. cbn [role invitedCompanies ca'
      CompanyController.with_invitedCompanies]. rewrite Hr. f_equal.
    apply not_true_is_false. intros Hs. apply some_eq_In in Hs.
    apply Hkept in Hs. tauto.
  - intros x Hx. unfold hasCompanyAccess. cbn [role invitedCompanies ca'
      CompanyController.with_invitedCompanies]. rewrite Hr. f_equal.
    destruct (some_eq (invitedCompanies ca) x) eqn:Hs.
    + apply some_eq_In. apply Hkept. split; [now apply some_eq_In | assumption].
    + apply not_true_is_false. intros Hs'. apply some_eq_In in Hs'.
      apply Hkept in Hs'. destruct Hs' as [Hin _]. apply some_eq_In in Hin. congruence.
  - reflexivity.
Qed.

Lemma removeCAFromCompanies_user_side_witness :
  snd (removeCAFromCompanies ok_faults "CA7" (Some ["O1"])
         (snd (assignCAToCompanies ok_faults "CA7" (Some ["O1"]) CompanyController.db0))) =
  CompanyController.db0.
Proof.
  destruct (removeCAFromCompanies_user_side ok_faults "CA7" ["O1"]
              (snd (assignCAToCompanies ok_faults "CA7" (Some ["O1"]) CompanyController.db0))
              (CompanyController.with_invitedCompanies ["O1"] CompanyController.ca7))
    as (ca' & _); try reflexivity.
  - intros c. reflexivity.
  - discriminate.
Defined.

End AdminFacts.

(** ** The consumer: rejected calls and what a message leaves alone *)

Section ConsumerFrame.
Import AnalysisConsumer.
Local Open Scope list_scope.

Ltac open_handler :=
  unfold handleAnalysisMessage, save_analysis, sync_documents, resolve_documents,
    JSON_parse, try_catch, bind, ret, throw, console_log, console_error, emit,
    Document_find, Analysis_findOneAndUpdate, Document_updateMany in *;
  cbn [analyses docs console fst snd negb].

(** A message that fails before anything is committed leaves both
    collections as they were and prints the error: text that does not
    parse, a rejected document lookup, a rejected upsert. *)
Theorem nothing_written_before_upsert env w :
  (forall e,
      handleAnalysisMessage env (Unparseable e) w =
        (Ok tt, {| analyses := analyses w; docs := docs w;
                   console := console w ++ failure_lines e |})) /\
  (forall data id adata e,
      valid data id adata ->
      (has_ids (document_ids data) = true /\ find_error env = Some e) \/
      ((has_ids (document_ids data) = false \/ find_error env = None) /\
       upsert_error env = Some e) ->
      handleAnalysisMessage env (Parsed data) w =
        (Ok tt, {| analyses := analyses w; docs := docs w;
                   console := console w ++ receipt_lines data ++
                              progress_lines data id ++ failure_lines e |})).
Proof.
  split.
  - intros e. open_handler. unfold failure_lines.
    rewrite <- app_assoc. reflexivity.
  - intros data id adata e Hv Hcase.
    pose proof (valid_truthy _ _ _ Hv) as Ht.
    destruct Hv as (Hid & Hne & Hdata).
    open_handler. rewrite Ht, Hdata. cbn [analyses docs console fst snd negb].
    rewrite Hid. cbn [show].
    unfold receipt_lines, progress_lines, failure_lines. rewrite Hid, Hdata.
    destruct Hcase as [[Hids Hf] | [Hor Hu]].
    + rewrite Hids, Hf. cbn [analyses docs console fst snd].
      rewrite <- !app_assoc. reflexivity.
    + destruct (has_ids (document_ids data)) eqn:Hids.
      * destruct Hor as [Hx | Hf]; [discriminate |].
        rewrite Hf. cbn [analyses docs console fst snd]. rewrite Hu.
        cbn [analyses docs console fst snd]. rewrite <- !app_assoc. reflexivity.
      * cbn [analyses docs console fst snd]. rewrite Hu.
        cbn [analyses docs console fst snd]. rewrite <- !app_assoc. reflexivity.
Qed.

(** The two writes of a message are not one transaction: when
    [updateMany] is rejected after the upsert, the analysis stays stored
    with its snapshot of the documents while no document is marked, and
    the error is printed. *)
Theorem analysis_stored_documents_unmarked env data id adata e w :
  valid data id adata ->
  has_ids (document_ids data) = true ->
  find_error env = None ->
  upsert_error env = None ->
  update_error env = Some e ->
  handleAnalysisMessage env (Parsed data) w =
    (Ok tt,
     {| analyses :=
          fst (upsert env id (update_of data id adata (resolved data (docs w)))
                 (analyses w));
        docs := docs w;
        console := console w ++ receipt_lines data ++ progress_lines data id ++
                   failure_lines e |}) /\
  exists r,
    findOne id (snd (handleAnalysisMessage env (Parsed data) w)) = Some r /\
    Analysis.documents r = resolved data (docs w) /\
    Analysis.status r = Analysis.completed.
Proof.
  intros Hv Hids Hf Hu Hm.
  pose proof (valid_truthy _ _ _ Hv) as Ht.
  destruct Hv as (Hid & Hne & Hdata).
  assert (Hrun : handleAnalysisMessage env (Parsed data) w =
    (Ok tt,
     {| analyses :=
          fst (upsert env id (update_of data id adata (resolved data (docs w)))
                 (analyses w));
        docs := docs w;
        console := console w ++ receipt_lines data ++ progress_lines data id ++
                   failure_lines e |})).
  { unfold resolved. open_handler. rewrite Ht, Hdata.
    cbn [analyses docs console fst snd negb]. rewrite Hid. cbn [show].
    rewrite Hids, Hf. cbn [analyses docs console fst snd]. rewrite Hu.
    destruct (upsert env id _ (analyses w)) as [l a].
    cbn [analyses docs console fst snd]. rewrite Hids, Hm.
    cbn [analyses docs console fst snd].
    unfold receipt_lines, progress_lines, failure_lines.
    rewrite Hid, Hdata, <- !app_assoc. reflexivity. }
  split; [exact Hrun |].
  rewrite Hrun. cbn [snd]. unfold findOne. cbn [analyses].
  set (u := update_of data id adata (resolved data (docs w))).
  exists (snd (upsert env id u (analyses w))).
  split; [apply (upsert_findOne env id u (analyses w) eq_refl) |].
  destruct (upsert_cases env id u (analyses w)) as
    [(la & x & lb & _ & _ & _ & ->) | (_ & ->)]; split; reflexivity.
Qed.

Lemma analysis_stored_documents_unmarked_witness :
  map Document.status
    (docs (snd (handleAnalysisMessage
                  {| find_error := None; upsert_error := None;
                     update_error := Some {| message := "timeout" |};
                     upsert_time := 1000; new_id := "r1"; update_time := 1001;
                     omitUndefined := true |}
                  (Parsed message_A1) store0))) = [Document.uploaded] /\
  (exists r,
      findOne "A1"
        (snd (handleAnalysisMessage
                {| find_error := None; upsert_error := None;
                   update_error := Some {| message := "timeout" |};
                   upsert_time := 1000; new_id := "r1"; update_time := 1001;
                   omitUndefined := true |}
                (Parsed message_A1) store0)) = Some r /\
      map Analysis.documentId (Analysis.documents r) = ["D1"]).
Proof.
  destruct (analysis_stored_documents_unmarked
              {| find_error := None; upsert_error := None;
                 update_error := Some {| message := "timeout" |};
                 upsert_time := 1000; new_id := "r1"; update_time := 1001;
                 omitUndefined := true |}
              message_A1 "A1" empty_data {| message := "timeout" |} store0
              valid_message_A1 eq_refl eq_refl eq_refl eq_refl)
    as (Hrun & r & Hr & Hdocs & _).
  split.
  - rewrite Hrun. reflexivity.
  - exists r. split; [exact Hr |]. rewrite Hdocs. reflexivity.
Defined.

(** *** What a message leaves alone *)

Lemma upsert_other_key env key u l k :
  set_analysisId u = key ->
  k <> key ->
  find (has_key k) (fst (upsert env key u l)) = find (has_key k) l.
Proof.
  intros Hk Hne.
  assert (Hnot : forall a, Analysis.analysisId a = key -> has_key k a = false).
  { intros a Ha. unfold has_key. rewrite Ha.
    destruct (String.eqb_spec key k); [congruence | reflexivity]. }
  destruct (upsert_cases env key u l) as
    [(l1 & x & l2 & -> & Hl1 & Hx & ->) | (Hl & ->)]; cbn [fst snd].
  - rewrite !find_app_split. cbn [find].
    rewrite (Hnot (apply_update env u x) Hk), (Hnot x (has_key_eq _ _ Hx)).
    reflexivity.
  - rewrite find_app_split. cbn [find].
    rewrite (Hnot (apply_update env u (inserted env key)) Hk).
    now destruct (find (has_key k) l).
Qed.

(** A message changes the analysis of its own [analysis_id] only: the
    analysis stored under any other key is the same before and after,
    whatever the message and whatever the database calls do. *)
Theorem other_analyses_untouched env message w k :
  (forall data, message = Parsed data -> analysis_id data <> Some k) ->
  findOne k (snd (handleAnalysisMessage env message w)) = findOne k w.
Proof.
  intros Hk. unfold findOne.
  destruct (message_shape env message w) as (_ & -> & [[-> _] | Hw]); [reflexivity |].
  destruct Hw as (data & id & u & Hm & Hid & Hu & -> & _).
  apply upsert_other_key; [exact Hu |].
  intros ->. now apply (Hk data Hm).
Qed.

Lemma other_analyses_untouched_witness :
  findOne "A2" (snd (handleAnalysisMessage env0 (Parsed message_A1) store0)) =
  findOne "A2" store0.
Proof.
  apply (other_analyses_untouched env0 (Parsed message_A1) store0 "A2").
  intros data H. inversion H; subst data. discriminate.
Defined.

(** The consumer never deletes or reorders analyses and adds at most
    one per message; of a stored analysis it never rewrites [_id],
    [createdAt] or [error], so an error text recorded before survives a
    later successful ingestion. *)
Theorem stored_analyses_keep_identity env message w :
  exists fresh,
    map (fun r => (Analysis._id r, Analysis.createdAt r, Analysis.error r))
        (analyses (snd (handleAnalysisMessage env message w))) =
    map (fun r => (Analysis._id r, Analysis.createdAt r, Analysis.error r))
        (analyses w) ++ fresh /\
    (length fresh <= 1)%nat.
Proof.
  destruct (message_shape env message w) as (_ & -> & [[-> _] | Hw]).
  - exists []. split; [now rewrite app_nil_r | cbn; lia].
  - destruct Hw as (data & id & u & _ & _ & Hu & -> & _).
    destruct (upsert_cases env id u (analyses w)) as
      [(l1 & x & l2 & -> & _ & _ & ->) | (_ & ->)]; cbn [fst].
    + exists []. split; [| cbn; lia].
      rewrite !map_app, app_nil_r. reflexivity.
    + eexists [_]. split; [| cbn; lia].
      rewrite map_app. reflexivity.
Qed.

Lemma mark_all_fixed env ids id l :
  map (fun d => (Document._id d, Document.filename d, Document.originalName d,
                 Document.fileType d, Document.company d, Document.uploadedBy d))
      (mark_all env ids id l) =
  map (fun d => (Document._id d, Document.filename d, Document.originalName d,
                 Document.fileType d, Document.company d, Document.uploadedBy d)) l.
Proof.
  unfold mark_all. rewrite map_map. apply map_ext. intros d.
  now destruct (id_in (Document._id d) ids).
Qed.

(** The consumer creates and deletes no document and changes nothing of
    a document but its status, its [analysisId] and its modification
    stamp; a document that the message does not name is left exactly as
    it was. *)
Theorem documents_keep_identity env message w :
  map (fun d => (Document._id d, Document.filename d, Document.originalName d,
                 Document.fileType d, Document.company d, Document.uploadedBy d))
      (docs (snd (handleAnalysisMessage env message w))) =
  map (fun d => (Document._id d, Document.filename d, Document.originalName d,
                 Document.fileType d, Document.company d, Document.uploadedBy d))
      (docs w) /\
  (forall d,
      In d (docs (snd (handleAnalysisMessage env message w))) ->
      In d (docs w) \/
      exists data,
        message = Parsed data /\
        In (Document._id d) (given_ids (document_ids data)) /\
        Document.status d = Document.analyzed /\
        Document.analysisId d = analysis_id data).
Proof.
  destruct (message_shape env message w) as (_ & _ & [[_ Hd] | Hw]).
  - rewrite Hd. split; [reflexivity | auto].
  - destruct Hw as (data & id & u & Hm & Hid & _ & _ & [Hd | Hd]); rewrite Hd.
    + split; [reflexivity | auto].
    + split; [apply mark_all_fixed |].
      intros d Hin. apply mark_all_In in Hin.
      destruct Hin as [(H1 & H2 & H3) | (_ & H)]; [| now left].
      right. exists data. rewrite Hid. auto.
Qed.

(** *** Two messages for one analysis *)

Lemma upsert_after_upsert e1 e2 key u1 u2 l :
  set_analysisId u1 = key ->
  set_analysisId u2 = key ->
  snd (upsert e2 key u2 (fst (upsert e1 key u1 l))) =
    apply_update e2 u2 (snd (upsert e1 key u1 l)) /\
  ((count_key key l <= 1)%nat ->
   count_key key (fst (upsert e2 key u2 (fst (upsert e1 key u1 l)))) = 1%nat).
Proof.
  intros Hk Hk2.
  destruct (upsert_cases e1 key u1 l) as
    [(la & x & lb & -> & Hla & Hx & ->) | (Hl & ->)]; cbn [fst snd].
  - assert (Hfx : has_key key (apply_update e1 u1 x) = true)
      by now apply has_key_refl.
    rewrite (upsert_at e2 key u2 la _ lb Hla Hfx). cbn [fst snd].
    split; [reflexivity |]. intros Hc.
    apply count_key_one; auto.
    + now apply has_key_refl.
    + now apply (count_key_rest key la x lb Hx).
  - assert (Hfx : has_key key (apply_update e1 u1 (inserted e1 key)) = true)
      by now apply has_key_refl.
    rewrite (upsert_at e2 key u2 l _ [] Hl Hfx). cbn [fst snd].
    split; [reflexivity |]. intros _.
    apply count_key_one; auto.
    now apply has_key_refl.
Qed.

(** The last message wins: of two valid messages with the same
    [analysis_id], ingested one after the other, the stored analysis has
    the payload, the health analysis and the document snapshot of the
    second, and keeps the [_id], the creation stamp and the uploader
    that the first ingestion left; there is still one record for the
    key. *)
Theorem last_message_wins e1 e2 data1 data2 id adata1 adata2 w :
  valid data1 id adata1 ->
  valid data2 id adata2 ->
  no_fault e1 -> no_fault e2 ->
  (count_key id (analyses w) <= 1)%nat ->
  exists r1 r2,
    findOne id (snd (handleAnalysisMessage e1 (Parsed data1) w)) = Some r1 /\
    findOne id (snd (handleAnalysisMessage e2 (Parsed data2)
                       (snd (handleAnalysisMessage e1 (Parsed data1) w)))) = Some r2 /\
    Analysis.consolidatedData r2 = adata2 /\
    Analysis.healthAnalysis r2 = health_of adata2 /\
    Analysis.documents r2 =
      resolved data2 (docs (snd (handleAnalysisMessage e1 (Parsed data1) w))) /\
    Analysis._id r2 = Analysis._id r1 /\
    Analysis.createdAt r2 = Analysis.createdAt r1 /\
    Analysis.uploadedBy r2 = Analysis.uploadedBy r1 /\
    Analysis.updatedAt r2 = upsert_time e2 /\
    count_key id
      (analyses (snd (handleAnalysisMessage e2 (Parsed data2)
                        (snd (handleAnalysisMessage e1 (Parsed data1) w))))) = 1%nat.
Proof.
  intros Hv1 Hv2 Hf1 Hf2 Hc.
  rewrite (handle_valid e1 data1 id adata1 w Hv1 Hf1). cbn [snd].
  rewrite (handle_valid e2 data2 id adata2 _ Hv2 Hf2). cbn [snd analyses docs].
  set (u1 := update_of data1 id adata1 (resolved data1 (docs w))).
  set (u2 := update_of data2 id adata2 (resolved data2 (synced e1 data1 id (docs w)))).
  destruct (upsert_after_upsert e1 e2 id u1 u2 (analyses w) eq_refl eq_refl)
    as [Hsnd Hcount].
  exists (snd (upsert e1 id u1 (analyses w))),
         (snd (upsert e2 id u2 (fst (upsert e1 id u1 (analyses w))))).
  unfold findOne. cbn [analyses].
  split; [apply (upsert_findOne e1 id u1 (analyses w) eq_refl) |].
  split; [apply (upsert_findOne e2 id u2 _ eq_refl) |].
  rewrite Hsnd. cbn.
  repeat split. now apply Hcount.
Qed.

Lemma last_message_wins_witness :
  exists r1 r2,
    findOne "A1" (snd (handleAnalysisMessage env0 (Parsed message_A1) store0)) = Some r1 /\
    findOne "A1" (snd (handleAnalysisMessage env1 (Parsed message_A1)
                         (snd (handleAnalysisMessage env0 (Parsed message_A1) store0))))
      = Some r2 /\
    Analysis.createdAt r2 = Analysis.createdAt r1 /\
    Analysis.updatedAt r2 = 2000%Z.
Proof.
  destruct (last_message_wins env0 env1 message_A1 message_A1 "A1" empty_data empty_data
              store0 valid_message_A1 valid_message_A1 no_fault_env0 no_fault_env1
              (Nat.le_0_l 1))
    as (r1 & r2 & H1 & H2 & _ & _ & _ & _ & H7 & _ & H9 & _).
  exists r1, r2. auto.
Defined.

(** [documentCount] is the count the producer sent when it sent a
    non-zero one, even if fewer documents were found; otherwise it is
    the number of snapshots stored. *)
Theorem documentCount_of_message env data id adata w :
  valid data id adata ->
  no_fault env ->
  exists r,
    findOne id (snd (handleAnalysisMessage env (Parsed data) w)) = Some r /\
    Analysis.documents r = resolved data (docs w) /\
    (forall n, meta_document_count (metadata data) = Some n -> n <> 0%Z ->
               Analysis.documentCount r = n) /\
    (meta_document_count (metadata data) = None \/
     meta_document_count (metadata data) = Some 0%Z ->
     Analysis.documentCount r = Z.of_nat (length (Analysis.documents r))).
Proof.
  intros Hv Hf.
  rewrite (handle_valid env data id adata w Hv Hf). cbn [snd].
  unfold findOne. cbn [analyses].
  set (u := update_of data id adata (resolved data (docs w))).
  exists (snd (upsert env id u (analyses w))).
  split; [apply (upsert_findOne env id u (analyses w) eq_refl) |].
  assert (Hr : Analysis.documents (snd (upsert env id u (analyses w))) =
               resolved data (docs w) /\
               Analysis.documentCount (snd (upsert env id u (analyses w))) =
               or_num (meta_document_count (metadata data))
                      (Z.of_nat (length (resolved data (docs w))))).
  { destruct (upsert_cases env id u (analyses w)) as
      [(la & x & lb & _ & _ & _ & ->) | (_ & ->)]; split; reflexivity. }
  destruct Hr as [Hdocs Hcount]. rewrite Hdocs, Hcount.
  split; [reflexivity |]. split.
  - intros n -> Hn. cbn. destruct (Z.eqb_spec n 0); [contradiction | reflexivity].
  - intros [-> | ->]; reflexivity.
Qed.

Lemma documentCount_of_message_witness :
  exists r,
    findOne "A1" (snd (handleAnalysisMessage env0 (Parsed message_A1) store0)) = Some r /\
    Analysis.documentCount r = 1%Z.
Proof.
  destruct (documentCount_of_message env0 message_A1 "A1" empty_data store0
              valid_message_A1 no_fault_env0) as (r & Hr & Hdocs & _ & Hnone).
  exists r. split; [exact Hr |].
  rewrite (Hnone (or_introl eq_refl)), Hdocs. reflexivity.
Defined.

End ConsumerFrame.

(** ** The history trend and the metric series *)

Section HistoryFacts.
Import AnalysisController AnalysisHistory.
Local Open Scope list_scope.

(** *** [calculateTrend] *)

(** [calculateTrend] needs two analyses and looks at the newest and the
    oldest only: with fewer than two entries the answer is
    [insufficient_data], and the entries in between never matter. *)
Theorem calculateTrend_endpoints :
  calculateTrend [] = "insufficient_data"%string /\
  (forall x, calculateTrend [x] = "insufficient_data"%string) /\
  (forall newest middle oldest,
      calculateTrend (newest :: middle ++ [oldest]) = calculateTrend [newest; oldest]).
Proof.
  split; [reflexivity |]. split; [reflexivity |].
  intros newest middle oldest. unfold calculateTrend.
  destruct middle as [|m middle]; [reflexivity |].
  cbn [app]. rewrite app_comm_cons, last_last. reflexivity.
Qed.

Lemma gt_asym a b : gt a b = true -> gt b a = false.
Proof.
  destruct a, b; cbn; try reflexivity; try discriminate.
  intros H. apply Z.ltb_lt in H. apply Z.ltb_ge. lia.
Qed.

(** Swapping the newest and the oldest analysis turns an improving
    trend into a declining one and back, and keeps a stable one. *)
Theorem calculateTrend_mirrored (a z : HistoryEntry) :
  (calculateTrend [a; z] = "improving"%string <->
   calculateTrend [z; a] = "declining"%string) /\
  (calculateTrend [a; z] = "declining"%string <->
   calculateTrend [z; a] = "improving"%string) /\
  (calculateTrend [a; z] = "stable"%string <->
   calculateTrend [z; a] = "stable"%string).
Proof.
  unfold calculateTrend. cbn [last].
  destruct (gt (rank (health_status a)) (rank (health_status z))) eqn:H1;
    destruct (gt (rank (health_status z)) (rank (health_status a))) eqn:H2.
  - apply gt_asym in H1. congruence.
  - repeat split; intros; (reflexivity || discriminate).
  - repeat split; intros; (reflexivity || discriminate).
  - repeat split; intros; (reflexivity || discriminate).
Qed.

(** *** Which metrics are classified *)

Lemma ends_length values p : ends values = Some p -> (2 <= length values)%nat.
Proof.
  destruct values as [|a [|b rest]]; cbn; try discriminate. intros _. lia.
Qed.

(** A metric listed as improving or declining has a series of two or
    more points in [metric_trends]: a metric seen once is never
    classified. *)
Theorem classified_metrics_have_series analyses key :
  listed key (improving_metrics (buildComparisonData analyses)) = true \/
  listed key (declining_metrics (buildComparisonData analyses)) = true ->
  exists values,
    In (key, values) (metric_trends (buildComparisonData analyses)) /\
    (2 <= length values)%nat.
Proof.
  unfold buildComparisonData.
  destruct (fold_left classify (extract_trends analyses) ([], [])) as [imp dec] eqn:Hfold.
  cbn [metric_trends improving_metrics declining_metrics].
  destruct (classify_fold (extract_trends analyses) ([], []) key) as [Hi Hd].
  rewrite Hfold in Hi, Hd. cbn [fst snd] in Hi, Hd.
  change (listed key []) with false in Hi, Hd. cbn [orb] in Hi, Hd.
  rewrite Hi, Hd. intros [H | H]; apply existsb_exists in H;
    destruct H as ([k values] & Hin & Htest); apply andb_prop in Htest;
    destruct Htest as [Hk Hr]; apply String.eqb_eq in Hk; cbn [fst] in Hk; subst k;
    exists values; (split; [exact Hin |]).
  - unfold rises in Hr. cbn [snd] in Hr.
    destruct (ends values) as [p|] eqn:He; [now apply (ends_length values p) | discriminate].
  - unfold falls in Hr. cbn [snd] in Hr.
    destruct (ends values) as [p|] eqn:He; [now apply (ends_length values p) | discriminate].
Qed.

Lemma classified_metrics_have_series_witness :
  exists values,
    In (sample_key, values) (metric_trends (buildComparisonData (sample_pair 100 108))) /\
    (2 <= length values)%nat.
Proof.
  apply (classified_metrics_have_series (sample_pair 100 108) sample_key).
  left. reflexivity.
Defined.

(** *** The series of a metric *)

Lemma get_app k (t1 t2 : MetricTrends) :
  get k (t1 ++ t2) =
  match get k t1 with
  | Some v => Some v
  | None => get k t2
  end.
Proof.
  unfold get. rewrite find_app_split.
  now destruct (find (fun kv => (fst kv =? k)%string) t1).
Qed.

Lemma has_metric_get k (t : MetricTrends) :
  has_metric k t = match get k t with Some _ => true | None => false end.
Proof.
  unfold has_metric, get.
  induction t as [|kv t IH]; cbn; [reflexivity |].
  now destruct (fst kv =? k)%string.
Qed.

Lemma get_ensure k k' (t : MetricTrends) :
  get k (ensure k' t) =
  match get k t with
  | Some v => Some v
  | None => if (k' =? k)%string then Some [] else None
  end.
Proof.
  unfold ensure. rewrite has_metric_get.
  destruct (get k' t) as [v'|] eqn:Hk'.
  - destruct (get k t) as [v|] eqn:Hk; [reflexivity |].
    destruct (String.eqb_spec k' k); [congruence | reflexivity].
  - rewrite get_app. destruct (get k t); [reflexivity |].
    unfold get. cbn. now destruct (k' =? k)%string.
Qed.

Lemma get_push k k' p (t : MetricTrends) :
  get k (push k' p t) =
  match get k t with
  | Some v => Some (if (k' =? k)%string then v ++ [p] else v)
  | None => None
  end.
Proof.
  unfold get, push.
  induction t as [|kv t IH]; cbn [map find]; [reflexivity |].
  destruct (String.eqb_spec (fst kv) k') as [Hk' | Hk']; cbn [fst].
  - destruct (String.eqb_spec (fst kv) k) as [Hk | Hk].
    + cbn [snd]. subst k' k. now rewrite String.eqb_refl.
    + exact IH.
  - destruct (String.eqb_spec (fst kv) k) as [Hk | Hk].
    + cbn [snd]. destruct (String.eqb_spec k' k); [congruence | reflexivity].
    + exact IH.
Qed.

(** The points a metric datum contributes for one analysis. *)
Lemma get_add_entry a c k t (entry : string * option MetricData) :
  get k (add_entry a c t entry) =
  if (c ++ "." ++ fst entry =? k)%string
  then Some (match get k t with Some v => v | None => [] end ++
             match metric_value (snd entry) with
             | Some v =>
                 [ {| AnalysisController.date := Analysis.createdAt a;
                      value := v;
                      AnalysisController.analysis_id := Analysis.analysisId a |} ]
             | None => []
             end)
  else get k t.
Proof.
  unfold add_entry.
  destruct (metric_value (snd entry)) as [v|].
  - rewrite get_push, get_ensure.
    destruct (get k t) as [old|]; destruct (c ++ "." ++ fst entry =? k)%string;
      reflexivity.
  - rewrite get_ensure.
    destruct (get k t) as [old|]; destruct (c ++ "." ++ fst entry =? k)%string;
      rewrite ?app_nil_r; reflexivity.
Qed.

Lemma append_cancel (s a b : string) : (s ++ a = s ++ b)%string -> a = b.
Proof.
  induction s as [|ch s IH]; cbn; [auto |].
  intros H. inversion H. auto.
Qed.

Lemma key_same_category c m m' :
  ((c ++ "." ++ m' =? c ++ "." ++ m) = (m' =? m))%string.
Proof.
  destruct (String.eqb_spec m' m) as [-> | Hne].
  - apply String.eqb_refl.
  - apply String.eqb_neq. intros H. apply append_cancel in H.
    inversion H. contradiction.
Qed.

Lemma key_other_category c c' m m' :
  In c metricCategories -> In c' metricCategories -> c' <> c ->
  ((c' ++ "." ++ m' =? c ++ "." ++ m) = false)%string.
Proof.
  intros Hc Hc' Hne. apply String.eqb_neq.
  cbn in Hc, Hc'.
  repeat (destruct Hc as [<- | Hc]; [| try contradiction]);
    repeat (destruct Hc' as [<- | Hc']; [| try contradiction]);
    try contradiction; try (exfalso; now apply Hne);
    cbn; intros H; discriminate.
Qed.

Lemma fold_entries_other a c' k es :
  (forall e, In e es -> (c' ++ "." ++ fst e =? k)%string = false) ->
  forall t, get k (fold_left (add_entry a c') es t) = get k t.
Proof.
  induction es as [|e es IH]; intros Hes t; cbn [fold_left]; [reflexivity |].
  rewrite IH by (intros e' He'; apply Hes; now right).
  rewrite get_add_entry, (Hes e) by now left. reflexivity.
Qed.

Lemma find_absent (m : string) (es : CategoryData) :
  ~ In m (map fst es) -> find (fun kv => (fst kv =? m)%string) es = None.
Proof.
  induction es as [|e es IH]; cbn; [reflexivity |].
  intros H. destruct (String.eqb_spec (fst e) m) as [Heq | Hne]; [tauto |].
  apply IH. tauto.
Qed.

Lemma fold_entries_same a c m es :
  NoDup (map fst es) ->
  forall t,
    get (c ++ "." ++ m)%string (fold_left (add_entry a c) es t) =
    match find (fun kv => (fst kv =? m)%string) es with
    | Some kv =>
        Some (match get (c ++ "." ++ m)%string t with Some v => v | None => [] end ++
              match metric_value (snd kv) with
              | Some v =>
                  [ {| AnalysisController.date := Analysis.createdAt a;
                       value := v;
                       AnalysisController.analysis_id := Analysis.analysisId a |} ]
              | None => []
              end)
    | None => get (c ++ "." ++ m)%string t
    end.
Proof.
  induction es as [|e es IH]; intros Hnd t; cbn [fold_left find]; [reflexivity |].
  inversion Hnd as [|? ? Hnot Hrest]; subst.
  destruct (String.eqb_spec (fst e) m) as [Heq | Hne].
  - rewrite fold_entries_other.
    + rewrite get_add_entry, key_same_category, Heq, String.eqb_refl. reflexivity.
    + intros e' He'. rewrite key_same_category. apply String.eqb_neq.
      intros Hm. apply Hnot. rewrite Heq, <- Hm. now apply in_map.
  - rewrite (IH Hrest), get_add_entry, key_same_category.
    destruct (String.eqb_spec (fst e) m); [contradiction | reflexivity].
Qed.

Lemma point_of_entry a c m :
  point_of a c m =
  match find (fun kv => (fst kv =? m)%string) (categoryData_of a c) with
  | Some kv =>
      match metric_value (snd kv) with
      | Some v =>
          [ {| AnalysisController.date := Analysis.createdAt a;
               value := v;
               AnalysisController.analysis_id := Analysis.analysisId a |} ]
      | None => []
      end
  | None => []
  end.
Proof.
  unfold point_of, entry_of.
  now destruct (find (fun kv => (fst kv =? m)%string) (categoryData_of a c)).
Qed.

Lemma not_mentioned_series analyses c m :
  mentioned analyses c m = false -> series_of analyses c m = [].
Proof.
  unfold mentioned, series_of.
  induction analyses as [|a l IH]; cbn [existsb flat_map]; [reflexivity |].
  intros H. apply orb_false_iff in H. destruct H as [Ha Hl].
  rewrite (IH Hl), app_nil_r. unfold point_of.
  destruct (entry_of a c m); [discriminate | reflexivity].
Qed.

(** One metric group over all the analyses. *)
Lemma fold_analyses_same c m analyses :
  (forall a, In a analyses -> NoDup (map fst (categoryData_of a c))) ->
  forall t,
    get (c ++ "." ++ m)%string
        (fold_left (fun t a => fold_left (add_entry a c) (categoryData_of a c) t)
                   analyses t) =
    if mentioned analyses c m
    then Some (match get (c ++ "." ++ m)%string t with Some v => v | None => [] end ++
               series_of analyses c m)
    else get (c ++ "." ++ m)%string t.
Proof.
  induction analyses as [|a l IH]; intros Hobj t; cbn [fold_left]; [reflexivity |].
  rewrite IH by (intros a' Ha'; apply Hobj; now right).
  rewrite (fold_entries_same a c m _ (Hobj a (or_introl eq_refl)) t).
  unfold mentioned, series_of. cbn [existsb flat_map].
  fold (mentioned l c m). fold (series_of l c m).
  rewrite (point_of_entry a c m). unfold entry_of.
  destruct (find (fun kv => (fst kv =? m)%string) (categoryData_of a c)) as [kv|];
    cbn [orb].
  - destruct (mentioned l c m) eqn:Hl.
    + now rewrite app_assoc.
    + now rewrite (not_mentioned_series l c m Hl), app_nil_r.
  - reflexivity.
Qed.

Lemma fold_analyses_other c c' m analyses :
  In c metricCategories -> In c' metricCategories -> c' <> c ->
  forall t,
    get (c ++ "." ++ m)%string
        (fold_left (fun t a => fold_left (add_entry a c') (categoryData_of a c') t)
                   analyses t) =
    get (c ++ "." ++ m)%string t.
Proof.
  intros Hc Hc' Hne.
  induction analyses as [|a l IH]; intros t; cbn [fold_left]; [reflexivity |].
  rewrite IH. apply fold_entries_other.
  intros e _. now apply key_other_category.
Qed.

Lemma fold_categories c m analyses cats :
  In c metricCategories ->
  incl cats metricCategories ->
  NoDup cats ->
  objects analyses ->
  forall t,
    get (c ++ "." ++ m)%string
        (fold_left
           (fun t category =>
              fold_left
                (fun t analysis =>
                   fold_left (add_entry analysis category)
                             (categoryData_of analysis category) t)
                analyses t)
           cats t) =
    if existsb (String.eqb c) cats && mentioned analyses c m
    then Some (match get (c ++ "." ++ m)%string t with Some v => v | None => [] end ++
               series_of analyses c m)
    else get (c ++ "." ++ m)%string t.
Proof.
  intros Hc Hincl Hnd Hobj.
  induction cats as [|c' cats IH]; intros t; cbn [fold_left existsb]; [reflexivity |].
  inversion Hnd as [|? ? Hnot Hrest]; subst.
  rewrite IH by (auto; intros x Hx; apply Hincl; now right).
  destruct (String.eqb_spec c c') as [<- | Hne].
  - assert (Hex : existsb (String.eqb c) cats = false).
    { apply not_true_is_false. intros H. apply existsb_exists in H.
      destruct H as (x & Hx & Heq). apply String.eqb_eq in Heq. now subst x. }
    rewrite Hex. cbn [andb orb].
    apply fold_analyses_same. intros a Ha. now apply Hobj.
  - cbn [orb].
    rewrite (fold_analyses_other c c' m analyses Hc) by (auto; apply Hincl; now left).
    reflexivity.
Qed.

Lemma metricCategories_NoDup : NoDup metricCategories.
Proof.
  unfold metricCategories.
  repeat (constructor; [cbn; intuition discriminate |]). constructor.
Qed.

(** The series of a metric, as [buildComparisonData] returns it, holds
    one point for every analysis in which the metric has a value, in the
    order of the analyses; an analysis without the metric, or with a
    null value, contributes nothing; a metric that no analysis has in
    the group has no series. *)
Theorem series_of_present_values analyses c m :
  In c metricCategories ->
  objects analyses ->
  get (c ++ "." ++ m)%string (metric_trends (buildComparisonData analyses)) =
    if mentioned analyses c m then Some (series_of analyses c m) else None.
Proof.
  intros Hc Hobj.
  assert (Ht : metric_trends (buildComparisonData analyses) = extract_trends analyses).
  { unfold buildComparisonData.
    destruct (fold_left classify (extract_trends analyses) ([], [])). reflexivity. }
  rewrite Ht. unfold extract_trends.
  rewrite (fold_categories c m analyses metricCategories Hc (incl_refl _)
             metricCategories_NoDup Hobj []).
  assert (Hex : existsb (String.eqb c) metricCategories = true).
  { apply existsb_exists. exists c. split; [assumption | apply String.eqb_refl]. }
  rewrite Hex. reflexivity.
Qed.

Lemma sample_objects a b : objects (sample_pair a b).
Proof.
  intros analysis category [<- | [<- | []]];
    unfold categoryData_of, sample;
    cbn [Analysis.consolidatedData comprehensive_financial_metrics find fst snd];
    destruct ("liquidity_ratios" =? category)%string; cbn [map fst snd];
    first [ apply NoDup_nil
          | apply NoDup_cons; [intros [] | apply NoDup_nil] ].
Qed.

Lemma series_of_present_values_witness :
  get sample_key (metric_trends (buildComparisonData (sample_pair 100 108))) =
  Some (sample_series 100 108).
Proof.
  exact (series_of_present_values (sample_pair 100 108) "liquidity_ratios"
           "current_ratio" (or_introl eq_refl) (sample_objects 100 108)).
Defined.

Lemma fold_left_inv_In {A B} (P : A -> Prop) (f : A -> B -> A) (l : list B) :
  (forall a b, In b l -> P a -> P (f a b)) -> forall a, P a -> P (fold_left f l a).
Proof.
  induction l as [|b l IH]; intros Hf a Ha; cbn; [assumption |].
  apply IH; [intros a' b' Hb'; apply Hf; now right |].
  apply Hf; [now left | assumption].
Qed.

Lemma add_entry_keys a c t entry k :
  In k (map fst (add_entry a c t entry)) ->
  In k (map fst t) \/ k = (c ++ "." ++ fst entry)%string.
Proof.
  unfold add_entry.
  assert (He : In k (map fst (ensure (c ++ "." ++ fst entry)%string t)) ->
               In k (map fst t) \/ k = (c ++ "." ++ fst entry)%string).
  { unfold ensure. destruct (has_metric _ t); [auto |].
    rewrite map_app, in_app_iff. cbn. intuition. }
  destruct (metric_value (snd entry)); [rewrite push_keys |]; exact He.
Qed.

(** Every key of [metric_trends] is a group name, a dot and a metric
    name. *)
Lemma extract_trends_keys analyses k :
  In k (map fst (extract_trends analyses)) ->
  exists c m, In c metricCategories /\ k = (c ++ "." ++ m)%string.
Proof.
  revert k. unfold extract_trends.
  apply (fold_left_inv_In
           (fun t => forall k, In k (map fst t) ->
                     exists c m, In c metricCategories /\ k = (c ++ "." ++ m)%string));
    [| intros k []].
  intros t category Hcat Ht.
  apply fold_left_inv; [| assumption].
  intros t' analysis Ht'. apply fold_left_inv; [| assumption].
  intros t'' entry Ht'' k Hk.
  apply add_entry_keys in Hk. destruct Hk as [Hk | ->]; [now apply Ht'' |].
  now exists category, (fst entry).
Qed.

Lemma get_In k v (t : MetricTrends) :
  NoDup (map fst t) -> In (k, v) t -> get k t = Some v.
Proof.
  unfold get. induction t as [|e t IH]; cbn [map In find]; intros Hnd Hin; [contradiction |].
  inversion Hnd as [|? ? Hnot Hrest]; subst.
  destruct Hin as [-> | Hin].
  - cbn [fst]. now rewrite String.eqb_refl.
  - destruct (String.eqb_spec (fst e) k) as [Heq | Hne]; [| now apply IH].
    exfalso. apply Hnot. rewrite Heq. apply in_map_iff. now exists (k, v).
Qed.

Lemma series_of_length analyses c m :
  (length (series_of analyses c m) <= length analyses)%nat.
Proof.
  unfold series_of. induction analyses as [|a l IH]; cbn [flat_map length]; [lia |].
  rewrite length_app.
  assert (Hp : (length (point_of a c m) <= 1)%nat).
  { unfold point_of. destruct (entry_of a c m) as [md|]; [| cbn; lia].
    destruct (metric_value md); cbn; lia. }
  lia.
Qed.

(** Every series of [metric_trends] belongs to one metric of one group
    and is made of the values that the analyses hold for it, in the
    order of the analyses: it has at most one point per analysis, and
    each point carries the id and the creation date of the analysis it
    comes from. *)
Theorem series_follow_analyses analyses key values :
  objects analyses ->
  In (key, values) (metric_trends (buildComparisonData analyses)) ->
  (exists c m,
      In c metricCategories /\ key = (c ++ "." ++ m)%string /\
      values = series_of analyses c m) /\
  (length values <= length analyses)%nat /\
  (forall p, In p values ->
     exists a, In a analyses /\
               AnalysisController.analysis_id p = Analysis.analysisId a /\
               AnalysisController.date p = Analysis.createdAt a).
Proof.
  intros Hobj Hin.
  assert (Ht : metric_trends (buildComparisonData analyses) = extract_trends analyses).
  { unfold buildComparisonData.
    destruct (fold_left classify (extract_trends analyses) ([], [])). reflexivity. }
  assert (Hkey : In key (map fst (extract_trends analyses))).
  { rewrite <- Ht. apply in_map_iff. now exists (key, values). }
  destruct (extract_trends_keys analyses key Hkey) as (c & m & Hc & ->).
  pose proof (series_of_present_values analyses c m Hc Hobj) as Hget.
  rewrite (get_In _ values) in Hget;
    [| rewrite Ht; apply extract_trends_NoDup | exact Hin].
  destruct (mentioned analyses c m); [| discriminate].
  inversion Hget as [Hv]. split; [| split].
  - exists c, m. auto.
  - apply series_of_length.
  - intros p Hp. unfold series_of in Hp. apply in_flat_map in Hp.
    destruct Hp as (a & Ha & Hpa). exists a. split; [assumption |].
    unfold point_of in Hpa. destruct (entry_of a c m) as [md|]; [| contradiction].
    destruct (metric_value md); [| contradiction].
    destruct Hpa as [<- | []]. split; reflexivity.
Qed.

Lemma series_follow_analyses_witness :
  (length (sample_series 100 108) <= length (sample_pair 100 108))%nat.
Proof.
  apply (series_follow_analyses (sample_pair 100 108) sample_key (sample_series 100 108)
           (sample_objects 100 108) (sample_pair_In 100 108)).
Defined.

End HistoryFacts.
